(** * jsonnetize: the resolution-and-replication engine of cmd/jsonnetize/main.go

    A shallow embedding of the Go program.  Go strings are byte sequences and
    are modelled by [string]; the operating system is an explicit state (a
    table of directories and regular files, plus the sequence of system calls
    issued so far); a Go function that returns a value and an error is a
    function from that state to [error + A] and the state it leaves.

    [processKustomization] calls itself through [processTypes] and
    [processResource] once for every directory among the resources, and a
    resource such as "." makes it call itself without end; the embedding
    bounds the calls in flight by a number and answers [OutOfFuel] beyond it.

    Not modelled: the [log.Printf] lines, file permissions, symbolic links
    (so [os.Stat] and [os.Lstat] agree), and write failures of an open file.
    Libraries and executables outside the repository ([net/url], the YAML
    codec, [jsonnet], [kustomize]) are parameters of the engine; instances of
    them are given to run it on concrete trees. *)

From Stdlib Require Import String Ascii List Bool Arith ZArith Lia.
Import ListNotations.

Local Open Scope string_scope.
Local Open Scope list_scope.

(** ** Go's [strings] package *)

Module Strings.

(** [strings.HasPrefix]. *)
Definition HasPrefix (s pre : string) : bool := String.prefix pre s.

(** Scan of [strings.LastIndex]: [i] is the index of the head of [s] in the
    whole string and [acc] the last match found so far. *)
Fixpoint lastIndexFrom (s sub : string) (i acc : Z) : Z :=
  let acc' := if String.prefix sub s then i else acc in
  match s with
  | EmptyString => acc'
  | String _ s' => lastIndexFrom s' sub (i + 1) acc'
  end.

(** [strings.LastIndex]: index of the last instance of [sub] in [s], or -1. *)
Definition LastIndex (s sub : string) : Z := lastIndexFrom s sub 0 (-1).

(** [strings.HasSuffix]: whether [s] ends with [suf]. *)
Fixpoint HasSuffix (s suf : string) : bool :=
  (s =? suf)%string ||
  match s with
  | EmptyString => false
  | String _ s' => HasSuffix s' suf
  end.

End Strings.

(** ** Go's [path/filepath] package, with Separator '/' *)

Module Filepath.

Definition slash : ascii := "/"%char.

(** The elements of a path between separators; never the empty list. *)
Fixpoint split (s : string) : list string :=
  match s with
  | EmptyString => [EmptyString]
  | String c s' =>
      if Ascii.eqb c slash then EmptyString :: split s'
      else match split s' with
           | h :: t => String c h :: t
           | [] => [String c EmptyString]
           end
  end.

(** [filepath.IsAbs]. *)
Definition IsAbs (path : string) : bool := Strings.HasPrefix path "/".

(** One element of [Clean]'s scan.  [stk] holds the elements kept so far, the
    last one first.  Empty and "." elements are dropped; ".." removes the
    element before it, unless that is itself a kept ".." or there is none (then
    ".." is kept in a relative path and dropped in a rooted one). *)
Definition cleanStep (rooted : bool) (stk : list string) (c : string) : list string :=
  if (c =? "")%string then stk
  else if (c =? ".")%string then stk
  else if (c =? "..")%string then
    match stk with
    | top :: stk' => if (top =? "..")%string then c :: stk else stk'
    | [] => if rooted then [] else [c]
    end
  else c :: stk.

Definition cleanElems (rooted : bool) (elems : list string) : list string :=
  rev (fold_left (cleanStep rooted) elems []).

(** [filepath.Clean]: the shortest path name equivalent to [path] by purely
    lexical processing. *)
Definition Clean (path : string) : string :=
  let rooted := IsAbs path in
  let out := String.concat "/" (cleanElems rooted (split path)) in
  if rooted then ("/" ++ out)%string
  else if (out =? "")%string then "." else out.

(** [filepath.Join]: the elements from the first non-empty one on, joined with
    the separator and cleaned; the empty string when all are empty. *)
Fixpoint Join (elem : list string) : string :=
  match elem with
  | [] => ""
  | e :: rest =>
      if (e =? "")%string then Join rest
      else Clean (String.concat "/" elem)
  end.

(** [filepath.Dir]: [Clean] of the path up to and including its last
    separator. *)
Definition Dir (path : string) : string :=
  match removelast (split path) with
  | [] => Clean ""
  | init => Clean (String.concat "/" init ++ "/")
  end.

End Filepath.

(** ** The operating system *)

(** A file-system object: a directory or a regular file with its bytes. *)
Inductive node : Type :=
| Directory
| Regular (content : string).

(** A resolved location: the elements of an absolute, cleaned path; [[]] is
    the root directory. *)
Definition key : Type := list string.

Definition key_eqb (a b : key) : bool :=
  if list_eq_dec string_dec a b then true else false.

Definition table : Type := key -> option node.

Definition upd (k : key) (n : node) (t : table) : table :=
  fun k' => if key_eqb k k' then Some n else t k'.

(** The calls the program makes to the system, with the arguments it passed. *)
Inductive call : Type :=
| CStat (name : string)
| CLstat (name : string)
| CMkdirAll (name : string)
| COpen (name : string)
| CCreate (name : string)
| CCopy (dst src : string)
| CReadFile (name : string)
| CWrite (name : string) (bytes : string)
| CExec (argv : list string).

(** The state the program runs in.  [trace] lists the calls made so far, the
    latest first. *)
Record world : Type := World {
  cwd : string;
  files : table;
  trace : list call
}.

Definition logged (c : call) (w : world) : world :=
  World (cwd w) (files w) (c :: trace w).

Definition stored (k : key) (n : node) (w : world) : world :=
  World (cwd w) (upd k n (files w)) (trace w).

(** What the program can fail with. *)
Inductive error : Type :=
| EmptyPath (root : string)          (* "empty path as %s" *)
| NoKustFile (root : string)         (* "couldn't find kustomization file in %s" *)
| NotAFile (path : string)           (* "%s is not a file" *)
| PathError (op path : string)       (* an error of package os *)
| ExitError (argv : list string)     (* an error of package os/exec *)
| YamlError
| Fatal (msg : string)               (* log.Fatalln with a literal message *)
| OutOfFuel.                         (* the model's recursion bound was reached *)

(** Structural errors, as opposed to file-system and process errors. *)
Definition structural (e : error) : bool :=
  match e with
  | EmptyPath _ | NoKustFile _ | NotAFile _ => true
  | _ => false
  end.

(** Go functions that return a value and an error, run in a [world]. *)
Definition M (A : Type) : Type := world -> (error + A) * world.

Definition ret {A} (a : A) : M A := fun w => (inr a, w).
Definition fail {A} (e : error) : M A := fun w => (inl e, w).
Definition bind {A B} (m : M A) (f : A -> M B) : M B :=
  fun w => match m w with
           | (inr a, w') => f a w'
           | (inl e, w') => (inl e, w')
           end.
(** The [x, err := f(); if err != nil { ... }] of a caller that handles the
    error itself. *)
Definition attempt {A} (m : M A) : M (error + A) :=
  fun w => let (r, w') := m w in (inr r, w').

Declare Scope go_scope.
Delimit Scope go_scope with go.
Notation "x <- m ;; k" := (bind m (fun x => k))
  (at level 61, m at next level, right associativity) : go_scope.
Notation "m ;;; k" := (bind m (fun _ => k))
  (at level 61, right associativity) : go_scope.

Module OS.

(** The location a path name denotes: relative names start at the working
    directory. *)
Definition resolve (w : world) (name : string) : key :=
  let full := if Filepath.IsAbs name then name else (cwd w ++ "/" ++ name)%string in
  Filepath.cleanElems true (Filepath.split full).

Definition endsInSlash (name : string) : bool :=
  match rev (Filepath.split name) with
  | last :: _ :: _ => (last =? "")%string
  | _ => false
  end.

(** Path resolution: the empty name denotes nothing, and a name with a
    trailing separator denotes directories only. *)
Definition lookup (w : world) (name : string) : option node :=
  if (name =? "")%string then None
  else match files w (resolve w name) with
       | Some (Regular c) => if endsInSlash name then None else Some (Regular c)
       | r => r
       end.

Record FileInfo : Type := {
  Name : string;
  IsDir : bool;
  IsRegular : bool
}.

(** The base name [os.Stat] reports: trailing separators removed, then what
    follows the last separator. *)
Definition basename (name : string) : string :=
  match filter (fun e => negb (e =? "")%string) (rev (Filepath.split name)) with
  | e :: _ => e
  | [] => if (name =? "")%string then "" else "/"
  end.

Definition info (name : string) (n : node) : FileInfo :=
  match n with
  | Directory => {| Name := basename name; IsDir := true; IsRegular := false |}
  | Regular _ => {| Name := basename name; IsDir := false; IsRegular := true |}
  end.

Definition Stat (name : string) : M FileInfo :=
  fun w => let w := logged (CStat name) w in
    match lookup w name with
    | Some n => (inr (info name n), w)
    | None => (inl (PathError "stat" name), w)
    end.

Definition Lstat (name : string) : M FileInfo :=
  fun w => let w := logged (CLstat name) w in
    match lookup w name with
    | Some n => (inr (info name n), w)
    | None => (inl (PathError "lstat" name), w)
    end.

(** Directories from [pre] down through [rest], created where missing; [None]
    when a regular file is in the way. *)
Fixpoint mkdirFrom (pre rest : key) (t : table) : option table :=
  match t pre with
  | Some (Regular _) => None
  | found =>
      let t' := match found with None => upd pre Directory t | _ => t end in
      match rest with
      | [] => Some t'
      | e :: rest' => mkdirFrom (pre ++ [e]) rest' t'
      end
  end.

Definition MkdirAll (name : string) : M unit :=
  fun w => let w := logged (CMkdirAll name) w in
    if (name =? "")%string then (inl (PathError "mkdir" name), w)
    else match mkdirFrom [] (resolve w name) (files w) with
         | Some t => (inr tt, World (cwd w) t (trace w))
         | None => (inl (PathError "mkdir" name), w)
         end.

(** An open file is known by the name it was opened with; the working
    directory never changes, so the name keeps denoting the same location. *)
Definition File : Type := string.

Definition Open (name : string) : M File :=
  fun w => let w := logged (COpen name) w in
    match lookup w name with
    | Some _ => (inr name, w)
    | None => (inl (PathError "open" name), w)
    end.

(** Whether [os.Create] can create or truncate [name]: its directory must
    exist and [name] must not be a directory. *)
Definition creatable (w : world) (name : string) : bool :=
  negb (name =? "")%string && negb (endsInSlash name) &&
  match resolve w name, files w (removelast (resolve w name)), files w (resolve w name) with
  | _ :: _, Some Directory, Some (Regular _)
  | _ :: _, Some Directory, None => true
  | _, _, _ => false
  end.

(** [os.Create]: the file is created, or truncated when it exists. *)
Definition Create (name : string) : M File :=
  fun w => let w := logged (CCreate name) w in
    if creatable w name then (inr name, stored (resolve w name) (Regular "") w)
    else (inl (PathError "open" name), w).

(** [Write] of an [os.File]: the bytes follow what the file holds.  The
    program only writes to a file it has just created. *)
Definition Write (f : File) (bytes : string) : M unit :=
  fun w => let w := logged (CWrite f bytes) w in
    match files w (resolve w f) with
    | Some (Regular held) => (inr tt, stored (resolve w f) (Regular (held ++ bytes)) w)
    | _ => (inl (PathError "write" f), w)
    end.

(** [io.Copy dst src]: what [src] holds follows what [dst] holds; reading a
    directory is an error. *)
Definition Copy (dst src : File) : M unit :=
  fun w => let w := logged (CCopy dst src) w in
    match files w (resolve w src), files w (resolve w dst) with
    | Some (Regular c), Some (Regular held) =>
        (inr tt, stored (resolve w dst) (Regular (held ++ c)) w)
    | Some (Regular _), _ => (inl (PathError "write" dst), w)
    | _, _ => (inl (PathError "read" src), w)
    end.

(** [ioutil.ReadFile]. *)
Definition ReadFile (name : string) : M string :=
  fun w => let w := logged (CReadFile name) w in
    match lookup w name with
    | Some (Regular c) => (inr c, w)
    | Some Directory => (inl (PathError "read" name), w)
    | None => (inl (PathError "open" name), w)
    end.

(** [os.Getwd]. *)
Definition Getwd : M string := fun w => (inr (cwd w), w).

End OS.

(** ** External collaborators *)

(** The one field of [url.URL] the program reads. *)
Record URL : Type := { Scheme : string }.

(** [types.Kustomization]: the three reference lists, and every other field
    kept as it was read. *)
Record Kustomization : Type := {
  Resources : list string;
  Generators : list string;
  Transformers : list string;
  Others : list string
}.

(** Libraries and processes the program calls and does not define: [net/url],
    [gopkg.in/yaml.v1], and the [jsonnet] and [kustomize] executables.  A
    renderer run yields the bytes it writes to its output file, or fails; a
    build run succeeds or fails. *)
Record Collaborators : Type := {
  url_Parse : string -> option URL;
  yaml_Unmarshal : string -> option Kustomization;
  yaml_Marshal : Kustomization -> option string;
  jsonnet : world -> string -> option string;
  kustomize : world -> string -> bool
}.

(** ** main.go *)

(** [KustomizeType], line 19; its [String] method serves the log only. *)
Inductive KustomizeType : Type := ResourceType | PluginType.

Record Jsonnetizer : Type := {
  Base : string;
  Output : string
}.

(** [QualifyOutput], line 40. *)
Definition QualifyOutput (j : Jsonnetizer) (root path : string) : string :=
  Filepath.Join [Output j; root; path].

(** [isJsonnetFile], line 81. *)
Definition isJsonnetFile (path : string) : bool :=
  (Strings.LastIndex path ".jsonnet" =? Z.of_nat (String.length path) - 8)%Z.

(** [copyFile], line 85. *)
Definition copyFile (src dest : string) : M unit :=
  (OS.MkdirAll (Filepath.Dir dest) ;;;
   open <- OS.Open src ;;
   create <- OS.Create dest ;;
   OS.Copy create open)%go.

Section Engine.

Variable E : Collaborators.

(** [isLocalFile], line 73. *)
Definition isLocalFile (path : string) : bool :=
  match url_Parse E path with
  | None => false
  | Some parse => (Scheme parse =? "")%string || (Scheme parse =? "file")%string
  end.

(** [exec.Command("jsonnet", "-o", outputFile, qPath).CombinedOutput()]. *)
Definition runJsonnet (outputFile qPath : string) : M unit :=
  fun w =>
    let argv := ["jsonnet"; "-o"; outputFile; qPath] in
    let w := logged (CExec argv) w in
    match jsonnet E w qPath with
    | Some bytes =>
        if OS.creatable w outputFile
        then (inr tt, stored (OS.resolve w outputFile) (Regular bytes) w)
        else (inl (ExitError argv), w)
    | None => (inl (ExitError argv), w)
    end.

(** [processFileRef], line 44. *)
Definition processFileRef (j : Jsonnetizer) (root path : string) : M string :=
  let qPath := Filepath.Join [root; path] in
  if negb (isLocalFile qPath) then ret path
  else if isJsonnetFile qPath && negb (Filepath.IsAbs path) then
    let outputFile := (QualifyOutput j root path ++ ".yml")%string in
    (OS.MkdirAll (Filepath.Dir outputFile) ;;;
     let updatedPath := (path ++ ".yml")%string in
     runJsonnet outputFile qPath ;;;
     ret updatedPath)%go
  else
    (copyFile qPath (QualifyOutput j root path) ;;; ret path)%go.

(** [processPlugin], line 132. *)
Definition processPlugin (j : Jsonnetizer) (root path : string) : M string :=
  processFileRef j root path.

(** [runKustomize], line 136. *)
Definition runKustomize (root : string) : M unit :=
  fun w =>
    let argv := ["kustomize"; "build"; "--enable_alpha_plugins"; root] in
    let w := logged (CExec argv) w in
    if kustomize E w root then (inr tt, w) else (inl (ExitError argv), w).

(** [findKustFile], line 189. *)
Definition findKustFile (root : string) : M string :=
  (let path := Filepath.Join [root; "kustomization.yml"] in
   r <- attempt (OS.Stat path) ;;
   found <- match r with
            | inr si => ret (path, si)
            | inl _ =>
                let path := Filepath.Join [root; "kustomization.yaml"] in
                r <- attempt (OS.Stat path) ;;
                match r with
                | inr si => ret (path, si)
                | inl _ => fail (NoKustFile root)
                end
            end ;;
   let (path, si) := found : string * OS.FileInfo in
   if negb (OS.IsRegular si) then fail (NotAFile path) else ret path)%go.

(** The functions that call each other through [processKustomization], over
    the call [recur] into a nested manifest directory. *)
Section Recursion.

Variable recur : Jsonnetizer -> string -> string -> M unit.

(** [processResource], line 111. *)
Definition processResourceWith (j : Jsonnetizer) (root path : string) : M string :=
  (si <- OS.Lstat (Filepath.Join [root; path]) ;;
   if OS.IsDir si then
     recur j root path ;;; ret path
   else
     updatedPath <- processFileRef j root path ;;
     ret updatedPath)%go.

(** The loop of [processTypes], line 168, over the entries still to visit. *)
Fixpoint processLoop (j : Jsonnetizer) (root : string) (kustType : KustomizeType)
    (paths finalResources : list string) : M (list string) :=
  match paths with
  | [] => ret finalResources
  | path :: rest =>
      if (path =? "")%string then fail (EmptyPath root)
      else
        (updatedPath <- match kustType with
                        | ResourceType => processResourceWith j root path
                        | PluginType => processPlugin j root path
                        end ;;
         processLoop j root kustType rest (finalResources ++ [updatedPath]))%go
  end.

(** [processTypes], line 166. *)
Definition processTypesWith (j : Jsonnetizer) (root : string) (kustType : KustomizeType)
    (paths : list string) : M (list string) :=
  processLoop j root kustType paths [].

(** [processKustomization], line 205. *)
Definition processKustomizationWith (j : Jsonnetizer) (oldRoot resource : string) : M unit :=
  (let root := Filepath.Join [oldRoot; resource] in
   kust <- findKustFile root ;;
   bytes <- OS.ReadFile kust ;;
   match yaml_Unmarshal E bytes with
   | None => fail YamlError
   | Some kustomization =>
       resources <- processTypesWith j root ResourceType (Resources kustomization) ;;
       generators <- processTypesWith j root PluginType (Generators kustomization) ;;
       transformers <- processTypesWith j root PluginType (Transformers kustomization) ;;
       let kustomization :=
         {| Resources := resources; Generators := generators;
            Transformers := transformers; Others := Others kustomization |} in
       let output := QualifyOutput j kust "" in
       f <- OS.Create output ;;
       match yaml_Marshal E kustomization with
       | None => fail YamlError
       | Some bytes => OS.Write f bytes
       end
   end)%go.

End Recursion.

(** [processKustomization] with at most [fuel] nested calls in flight. *)
Fixpoint processKustomization (fuel : nat) (j : Jsonnetizer) (oldRoot resource : string)
    : M unit :=
  match fuel with
  | O => fail OutOfFuel
  | S fuel' => processKustomizationWith (processKustomization fuel') j oldRoot resource
  end.

Definition processResource (fuel : nat) : Jsonnetizer -> string -> string -> M string :=
  processResourceWith (processKustomization fuel).

Definition processTypes (fuel : nat)
    : Jsonnetizer -> string -> KustomizeType -> list string -> M (list string) :=
  processTypesWith (processKustomization fuel).

(** [main], line 264, on the value of the [-output] flag and the positional
    arguments; a [log.Fatalln] ends the run with its error. *)
Definition main (fuel : nat) (output : string) (args : list string) : M unit :=
  (output <- (if (output =? "")%string then OS.Getwd else ret output) ;;
   match args with
   | [] => fail (Fatal "Not enough args")
   | kustRoot :: _ =>
       si <- OS.Stat kustRoot ;;
       kustRoot <- (if negb (OS.IsDir si) then
                      if negb (OS.Name si =? "kustomization.yml")%string
                         || negb (OS.Name si =? "kustomization.yaml")%string
                      then fail (Fatal "Argument must be a kustomization root or yaml file")
                      else ret (Filepath.Dir kustRoot)
                    else ret kustRoot) ;;
       let j := {| Base := kustRoot; Output := output |} in
       processKustomization fuel j kustRoot "" ;;;
       runKustomize (QualifyOutput j kustRoot "")
   end)%go.

End Engine.

(** The manifest the resolver loads for the directory [root] in [w]: the file
    [findKustFile] selects and what [yaml.Unmarshal] makes of its bytes. *)
Definition manifestAt (E : Collaborators) (root : string) (w : world)
    : option (string * Kustomization) :=
  match findKustFile root w with
  | (inr kust, w1) =>
      match OS.ReadFile kust w1 with
      | (inr bytes, _) =>
          match yaml_Unmarshal E bytes with
          | Some k => Some (kust, k)
          | None => None
          end
      | _ => None
      end
  | _ => None
  end.

(** How one reference may be rewritten: kept, or given the rendering suffix. *)
Definition rewrites (ref out : string) : Prop :=
  out = ref \/ out = (ref ++ ".yml")%string.

(** The number of [os.MkdirAll] calls in a trace.  Copying and rendering both
    start with one, and nothing else in the program makes one. *)
Fixpoint mkdirs (t : list call) : nat :=
  match t with
  | [] => 0
  | CMkdirAll _ :: t' => S (mkdirs t')
  | _ :: t' => mkdirs t'
  end.

(** ** Instances of the collaborators, to run the model on concrete trees *)

(** [net/url]'s [Parse], as far as [isLocalFile] observes it: whether parsing
    fails, and the scheme.  Validation of a host and of user information
    (reached only by a string with "//" after its scheme) is left out. *)
Module NetURL.

Definition between (lo hi : nat) (c : ascii) : bool :=
  (lo <=? nat_of_ascii c)%nat && (nat_of_ascii c <=? hi)%nat.

Definition isLetter (c : ascii) : bool := between 97 122 c || between 65 90 c.

Definition isSchemeMark (c : ascii) : bool :=
  between 48 57 c || Ascii.eqb c "+" || Ascii.eqb c "-" || Ascii.eqb c ".".

Definition ishex (c : ascii) : bool :=
  between 48 57 c || between 97 102 c || between 65 70 c.

(** [getScheme]: [pre] is what was read of [rawURL] before [s]. *)
Fixpoint scanScheme (rawURL s pre : string) : option (string * string) :=
  match s with
  | EmptyString => Some ("", rawURL)
  | String c s' =>
      if isLetter c then scanScheme rawURL s' (pre ++ String c "")
      else if isSchemeMark c then
        if (pre =? "")%string then Some ("", rawURL)
        else scanScheme rawURL s' (pre ++ String c "")
      else if Ascii.eqb c ":" then
        if (pre =? "")%string then None else Some (pre, s')
      else Some ("", rawURL)
  end.

Definition getScheme (rawURL : string) : option (string * string) :=
  scanScheme rawURL rawURL "".

Definition lower (c : ascii) : ascii :=
  if between 65 90 c then ascii_of_nat (nat_of_ascii c + 32) else c.

Fixpoint ToLower (s : string) : string :=
  match s with
  | EmptyString => EmptyString
  | String c s' => String (lower c) (ToLower s')
  end.

(** [strings.Cut] at a single byte. *)
Fixpoint Cut (sep : ascii) (s : string) : string * string :=
  match s with
  | EmptyString => ("", "")
  | String c s' =>
      if Ascii.eqb c sep then ("", s')
      else let (before, after) := Cut sep s' in (String c before, after)
  end.

Fixpoint containsByte (p : ascii -> bool) (s : string) : bool :=
  match s with
  | EmptyString => false
  | String c s' => p c || containsByte p s'
  end.

Definition isCTL (c : ascii) : bool :=
  (nat_of_ascii c <? 32)%nat || (nat_of_ascii c =? 127)%nat.

(** Whether [unescape] accepts [s] as a path or a fragment: every '%' is
    followed by two hexadecimal digits. *)
Fixpoint validEscapes (s : string) : bool :=
  match s with
  | EmptyString => true
  | String c s1 =>
      if Ascii.eqb c "%" then
        match s1 with
        | String a (String b s') => ishex a && ishex b && validEscapes s'
        | _ => false
        end
      else validEscapes s1
  end.

(** The path left after an authority, when [rest] has one. *)
Definition afterAuthority (scheme rest : string) : string :=
  if (negb (scheme =? "")%string || negb (Strings.HasPrefix rest "///"))
     && Strings.HasPrefix rest "//"
  then match rest with
       | String _ (String _ authority) =>
           if containsByte (Ascii.eqb "/") authority
           then String "/" (snd (Cut "/" authority))
           else ""
       | _ => rest
       end
  else rest.

Definition parse (u : string) : option URL :=
  if containsByte isCTL u then None
  else if (u =? "*")%string then Some {| Scheme := "" |}
  else
    match getScheme u with
    | None => None
    | Some (scheme, rest) =>
        let scheme := ToLower scheme in
        let rest := fst (Cut "?" rest) in
        if negb (Strings.HasPrefix rest "/") && negb (scheme =? "")%string
        then Some {| Scheme := scheme |}
        else if negb (Strings.HasPrefix rest "/")
                && containsByte (Ascii.eqb ":") (fst (Cut "/" rest))
        then None
        else if validEscapes (afterAuthority scheme rest)
        then Some {| Scheme := scheme |}
        else None
    end.

Definition Parse (rawURL : string) : option URL :=
  let (u, frag) := Cut "#" rawURL in
  match parse u with
  | None => None
  | Some url => if validEscapes frag then Some url else None
  end.

End NetURL.

(** A codec for manifests written one entry per line: a line "resources:",
    "generators:" or "transformers:" opens a list, a line "- x" adds [x] to
    the open list, and any other line is kept among [Others]. *)
Module LineYaml.

Definition LF : string := String (ascii_of_nat 10) "".

Fixpoint lines (s : string) : list string :=
  match s with
  | EmptyString => [EmptyString]
  | String c s' =>
      if Ascii.eqb c (ascii_of_nat 10) then EmptyString :: lines s'
      else match lines s' with
           | h :: t => String c h :: t
           | [] => [String c EmptyString]
           end
  end.

Inductive section : Type := Outside | InResources | InGenerators | InTransformers.

Definition addEntry (sec : section) (x : string) (k : Kustomization) : Kustomization :=
  match sec with
  | InResources =>
      {| Resources := Resources k ++ [x]; Generators := Generators k;
         Transformers := Transformers k; Others := Others k |}
  | InGenerators =>
      {| Resources := Resources k; Generators := Generators k ++ [x];
         Transformers := Transformers k; Others := Others k |}
  | InTransformers =>
      {| Resources := Resources k; Generators := Generators k;
         Transformers := Transformers k ++ [x]; Others := Others k |}
  | Outside =>
      {| Resources := Resources k; Generators := Generators k;
         Transformers := Transformers k; Others := Others k ++ [("- " ++ x)%string] |}
  end.

Definition addOther (x : string) (k : Kustomization) : Kustomization :=
  {| Resources := Resources k; Generators := Generators k;
     Transformers := Transformers k; Others := Others k ++ [x] |}.

Fixpoint read (ls : list string) (sec : section) (k : Kustomization) : Kustomization :=
  match ls with
  | [] => k
  | l :: ls' =>
      if (l =? "")%string then read ls' sec k
      else if (l =? "resources:")%string then read ls' InResources k
      else if (l =? "generators:")%string then read ls' InGenerators k
      else if (l =? "transformers:")%string then read ls' InTransformers k
      else match l with
           | String "-" (String " " x) => read ls' sec (addEntry sec x k)
           | _ => read ls' Outside (addOther l k)
           end
  end.

Definition Unmarshal (bytes : string) : option Kustomization :=
  Some (read (lines bytes) Outside
          {| Resources := []; Generators := []; Transformers := []; Others := [] |}).

Definition block (name : string) (entries : list string) : list string :=
  match entries with
  | [] => []
  | _ => name :: map (fun x => ("- " ++ x)%string) entries
  end.

Definition Marshal (k : Kustomization) : option string :=
  Some (String.concat LF
          (Others k ++ block "resources:" (Resources k)
             ++ block "generators:" (Generators k)
             ++ block "transformers:" (Transformers k) ++ [""])).

End LineYaml.

(** A renderer for sources that are already literal (a JSON document is a
    Jsonnet program that evaluates to itself): it writes what it read. *)
Definition literalRenderer (w : world) (src : string) : option string :=
  match OS.lookup w src with
  | Some (Regular c) => Some c
  | _ => None
  end.

Definition instance : Collaborators := {|
  url_Parse := NetURL.Parse;
  yaml_Unmarshal := LineYaml.Unmarshal;
  yaml_Marshal := LineYaml.Marshal;
  jsonnet := literalRenderer;
  kustomize := fun _ _ => true
|}.

(** A table from a list of locations. *)
Fixpoint tableOf (l : list (key * node)) : table :=
  match l with
  | [] => fun _ => None
  | (k, n) :: l' => upd k n (tableOf l')
  end.

(** ** Trees to run on *)

Definition manifest (ls : list string) : node := Regular (String.concat LineYaml.LF ls).

(** A manifest directory [app] under the working directory [/work], with a
    literal file, a template and a nested manifest directory; [/out] exists
    and is empty. *)
Definition appTree : table := tableOf [
  ([], Directory);
  (["work"], Directory);
  (["out"], Directory);
  (["work"; "app"], Directory);
  (["work"; "app"; "kustomization.yml"],
     manifest ["namePrefix: dev-"; "resources:"; "- base.yml"; "- overlay"; "- config.jsonnet"]);
  (["work"; "app"; "base.yml"], Regular "kind: Deployment");
  (["work"; "app"; "config.jsonnet"], Regular "{}");
  (["work"; "app"; "overlay"], Directory);
  (["work"; "app"; "overlay"; "kustomization.yaml"],
     manifest ["resources:"; "- patch.yml"]);
  (["work"; "app"; "overlay"; "patch.yml"], Regular "kind: Patch")
].

Definition appWorld : world := World "/work" appTree [].

(** The resolution of [app] into [/out], and the world it ends in. *)
Definition appJ : Jsonnetizer := {| Base := "app"; Output := "/out" |}.

Definition appResolved : world :=
  snd (processKustomization instance 5 appJ "app" "" appWorld).

(** The directory [/work/app] as working directory, holding a manifest with
    the given lines and one literal file, [svc.yml]. *)
Definition flatTree (lines : list string) : table := tableOf [
  ([], Directory);
  (["work"], Directory);
  (["out"], Directory);
  (["work"; "app"], Directory);
  (["work"; "app"; "kustomization.yml"], manifest lines);
  (["work"; "app"; "svc.yml"], Regular "{}")
].

Definition flatWorld (lines : list string) : world :=
  World "/work/app" (flatTree lines) [].

(** The same directory seen from [/work]. *)
Definition nestedWorld (lines : list string) : world :=
  World "/work" (flatTree lines) [].

(** A manifest directory named [100%] with one template; its place in the
    output tree, [/out/100%], exists already. *)
Definition percentTree : table := tableOf [
  ([], Directory);
  (["work"], Directory);
  (["out"], Directory);
  (["out"; "100%"], Directory);
  (["work"; "100%"], Directory);
  (["work"; "100%"; "kustomization.yml"], manifest ["resources:"; "- config.jsonnet"]);
  (["work"; "100%"; "config.jsonnet"], Regular "{}")
].

Definition percentWorld : world := World "/work" percentTree [].

(** A manifest directory [app] whose resources are the directory [overlay]
    and then the manifest file of that directory; [overlay] has one
    template. *)
Definition shadowTree : table := tableOf [
  ([], Directory);
  (["work"], Directory);
  (["out"], Directory);
  (["work"; "app"], Directory);
  (["work"; "app"; "kustomization.yml"],
     manifest ["resources:"; "- overlay"; "- overlay/kustomization.yaml"]);
  (["work"; "app"; "overlay"], Directory);
  (["work"; "app"; "overlay"; "kustomization.yaml"],
     manifest ["resources:"; "- patch.jsonnet"]);
  (["work"; "app"; "overlay"; "patch.jsonnet"], Regular "{}")
].

Definition shadowWorld : world := World "/work" shadowTree [].

(** A manifest whose second resource entry is the empty string. *)
Definition emptyEntryWorld : world := nestedWorld ["resources:"; "- svc.yml"; "- "].

(** The world in which the reference lists are processed: after the manifest
    under [root] has been located and read. *)
Definition loaded (root : string) (w : world) : world :=
  match findKustFile root w with
  | (inr kust, w1) => snd (OS.ReadFile kust w1)
  | (inl _, w1) => w1
  end.

(** ** How a run changes the world *)

(** [evolves w w']: [w'] can follow [w] in a run.  The working directory is
    the same, directories stay directories and regular files stay regular
    files, and unless [os.MkdirAll] was called in between, [w'] has no
    directory that [w] lacks. *)
Record evolves (w w' : world) : Prop := {
  ev_cwd : cwd w' = cwd w;
  ev_dir : forall k, files w k = Some Directory -> files w' k = Some Directory;
  ev_reg : forall k c, files w k = Some (Regular c) ->
                       exists c', files w' k = Some (Regular c');
  ev_mkdirs : mkdirs (trace w) <= mkdirs (trace w');
  ev_frame : mkdirs (trace w') = mkdirs (trace w) ->
             forall k, files w' k = Some Directory -> files w k = Some Directory
}.

(** A computation every run of which is such a change. *)
Definition steady {A} (m : M A) : Prop := forall w, evolves w (snd (m w)).

(** One entry of a reference list was resolved somewhere between [w] and
    [w']: [processTypes]' switch on the list's kind ran on [path] and returned
    [out]. *)
Definition entryResolved (E : Collaborators)
    (recur : Jsonnetizer -> string -> string -> M unit) (j : Jsonnetizer) (root : string)
    (kustType : KustomizeType) (w w' : world) (path out : string) : Prop :=
  exists wa wb,
    evolves w wa /\ evolves wb w' /\
    match kustType with
    | ResourceType => processResourceWith E recur j root path
    | PluginType => processPlugin E j root path
    end wa = (inr out, wb).

(** ** Elements of cleaned paths *)

(** An element [Clean] keeps when it meets it: neither empty nor ".". *)
Definition solid (e : string) : bool :=
  negb (e =? "")%string && negb (e =? ".")%string.

(** A kept element that is a name, not "..". *)
Definition plain (e : string) : bool :=
  solid e && negb (e =? "..")%string.

(** The calls of a trace that run the renderer. *)
Definition isRender (c : call) : bool :=
  match c with
  | CExec (name :: _) => (name =? "jsonnet")%string
  | _ => false
  end.

(** ** What a run stores, and where *)

(** Whether a call stores bytes at the location [k]: it creates, writes or
    copies to a name that denotes [k], or renders into it. *)
Definition writesTo (w : world) (k : key) (c : call) : bool :=
  match c with
  | CCreate name | CWrite name _ | CCopy name _ => key_eqb (OS.resolve w name) k
  | CExec (prog :: _ :: outputFile :: _) =>
      (prog =? "jsonnet")%string && key_eqb (OS.resolve w outputFile) k
  | _ => false
  end.

(** [quiet k w w']: [w'] follows [w] by some calls, and if none of them
    stores at [k], a regular file at [k] holds in [w'] what it held in [w]. *)
Record quiet (k : key) (w w' : world) : Prop := {
  q_cwd : cwd w' = cwd w;
  q_kept : exists new,
      trace w' = new ++ trace w /\
      (existsb (writesTo w k) new = false ->
       forall c, files w k = Some (Regular c) -> files w' k = Some (Regular c))
}.

(** A computation every run of which is quiet at every location. *)
Definition calm {A} (m : M A) : Prop := forall k w, quiet k w (snd (m w)).

(** [rewritesTo E fuel j root w k k' w']: starting with the manifest [k] of
    [root] loaded in [w], the three loops of [processKustomization] succeed,
    one after the other, ending in [w'], and [k'] is [k] with its three lists
    replaced by their outputs. *)
Definition rewritesTo (E : Collaborators) (fuel : nat) (j : Jsonnetizer) (root : string)
    (w : world) (k k' : Kustomization) (w' : world) : Prop :=
  exists w3 w4,
    processTypes E fuel j root ResourceType (Resources k) (loaded root w)
    = (inr (Resources k'), w3) /\
    processTypes E fuel j root PluginType (Generators k) w3 = (inr (Generators k'), w4) /\
    processTypes E fuel j root PluginType (Transformers k) w4
    = (inr (Transformers k'), w') /\
    Others k' = Others k.

(** Like [entryResolved], keeping track of what is stored after the entry. *)
Definition entryKept (E : Collaborators)
    (recur : Jsonnetizer -> string -> string -> M unit) (j : Jsonnetizer) (root : string)
    (kustType : KustomizeType) (w w' : world) (path out : string) : Prop :=
  exists wa wb,
    evolves w wa /\ evolves wb w' /\ (forall k, quiet k wb w') /\
    match kustType with
    | ResourceType => processResourceWith E recur j root path
    | PluginType => processPlugin E j root path
    end wa = (inr out, wb).

(** * Properties *)

(** ** The models of the libraries on known inputs *)

Example clean_examples :
  Filepath.Clean "a//b/./c/.." = "a/b" /\
  Filepath.Clean "/../a" = "/a" /\
  Filepath.Clean "../../a/../b" = "../../b" /\
  Filepath.Clean "" = "." /\
  Filepath.Clean "/" = "/" /\
  Filepath.Join ["base"; "https://example.com/plugin.yml"] = "base/https:/example.com/plugin.yml" /\
  Filepath.Join ["/output/here"; "/abc/123/xyz"; "my.resource"] = "/output/here/abc/123/xyz/my.resource" /\
  Filepath.Join ["."; ""] = "." /\
  Filepath.Dir "/a" = "/" /\ Filepath.Dir "a/b" = "a" /\ Filepath.Dir "a" = ".".
Proof. repeat split; reflexivity. Qed.

Example jsonnet_examples :
  isJsonnetFile "x.jsonnet" = true /\ isJsonnetFile "x.yaml" = false /\
  isJsonnetFile "abc.yml" = true.
Proof. repeat split; reflexivity. Qed.

Example url_examples :
  NetURL.Parse "https://example.com/plugin.yml" = Some {| Scheme := "https" |} /\
  NetURL.Parse "base/https:/example.com/plugin.yml" = Some {| Scheme := "" |} /\
  NetURL.Parse "https:/example.com/plugin.yml" = Some {| Scheme := "https" |} /\
  NetURL.Parse "a:b/c" = Some {| Scheme := "a" |} /\
  NetURL.Parse "./a:b/c" = Some {| Scheme := "" |} /\ NetURL.Parse "1a:b/c" = None /\
  NetURL.Parse "FILE:///x" = Some {| Scheme := "file" |} /\
  NetURL.Parse "x%zz" = None /\
  NetURL.Parse "abc.yml" = Some {| Scheme := "" |}.
Proof. repeat split; reflexivity. Qed.

(** The repository's own test of [QualifyOutput]. *)
Example TestJsonnetizer_QualifyOutput :
  QualifyOutput {| Base := "/abc/123"; Output := "/output/here" |} "/abc/123/xyz" "my.resource"
  = "/output/here/abc/123/xyz/my.resource".
Proof. reflexivity. Qed.

(** ** Running a sequence of calls *)

Lemma bind_inr {A B} (m : M A) (f : A -> M B) (w w' : world) (b : B) :
  bind m f w = (inr b, w') ->
  exists a w1, m w = (inr a, w1) /\ f a w1 = (inr b, w').
Proof.
  unfold bind. destruct (m w) as [[e | a] w1]; [discriminate |]. eauto.
Qed.

Lemma bind_ok {A B} (m : M A) (f : A -> M B) (w w1 : world) (a : A) :
  m w = (inr a, w1) -> bind m f w = f a w1.
Proof. unfold bind. now intros ->. Qed.

Lemma bind_err {A B} (m : M A) (f : A -> M B) (w w1 : world) (e : error) :
  m w = (inl e, w1) -> bind m f w = (inl e, w1).
Proof. unfold bind. now intros ->. Qed.

Lemma lookup_logged (c : call) (w : world) (name : string) :
  OS.lookup (logged c w) name = OS.lookup w name.
Proof. reflexivity. Qed.

(** ** Locating the manifest *)

(** C9.  [findKustFile] tries "kustomization.yml" and then
    "kustomization.yaml" under [root] and decides on the first of the two that
    exists: its path is returned when it is a regular file, and is refused as
    not a file otherwise.  Whether the second name exists is looked at only
    when the first does not, and when neither exists the result is the
    structural error that no manifest was found.  The file system is left as
    it was. *)
Theorem findKustFile_priority (root : string) (w : world) :
  let yml := Filepath.Join [root; "kustomization.yml"] in
  let yaml := Filepath.Join [root; "kustomization.yaml"] in
  fst (findKustFile root w) =
    match OS.lookup w yml with
    | Some (Regular _) => inr yml
    | Some Directory => inl (NotAFile yml)
    | None =>
        match OS.lookup w yaml with
        | Some (Regular _) => inr yaml
        | Some Directory => inl (NotAFile yaml)
        | None => inl (NoKustFile root)
        end
    end
  /\ structural (NoKustFile root) = true
  /\ files (snd (findKustFile root w)) = files w.
Proof.
  intros yml yaml. unfold findKustFile, bind, attempt, OS.Stat.
  fold yml. fold yaml. clearbody yml yaml. rewrite !lookup_logged.
  destruct (OS.lookup w yml) as [[| c] |] eqn:Hyml; cbn.
  - auto.
  - auto.
  - rewrite !lookup_logged.
    destruct (OS.lookup w yaml) as [[| c] |] eqn:Hyaml; cbn; auto.
Qed.

(** ** The entry point *)

Arguments Filepath.Join : simpl never.
Arguments Filepath.Dir : simpl never.
Arguments Filepath.Clean : simpl never.
Arguments OS.resolve : simpl never.
Arguments OS.basename : simpl never.
Arguments String.eqb : simpl never.

(** C4, as the program is written to behave.  For every positional argument
    that names an existing regular file whose base name is neither
    "kustomization.yml" nor "kustomization.yaml", [main] ends with the error
    "Argument must be a kustomization root or yaml file" after its one
    [os.Stat]: the Manifest Resolver is not invoked and nothing is written. *)
Theorem main_refuses_other_files (E : Collaborators) (fuel : nat) (output kustRoot : string)
    (rest : list string) (w : world) (c : string) :
  OS.lookup w kustRoot = Some (Regular c) ->
  OS.basename kustRoot <> "kustomization.yml" ->
  OS.basename kustRoot <> "kustomization.yaml" ->
  main E fuel output (kustRoot :: rest) w
  = (inl (Fatal "Argument must be a kustomization root or yaml file"),
     logged (CStat kustRoot) w).
Proof.
  intros Hfile Hyml Hyaml. unfold main.
  assert (Hout : forall k : string -> M unit,
             bind (if (output =? "")%string then OS.Getwd else ret output) k w
             = k (if (output =? "")%string then cwd w else output) w).
  { intros k. unfold bind. now destruct (output =? "")%string. }
  rewrite Hout.
  unfold bind at 1. unfold OS.Stat. rewrite lookup_logged, Hfile. cbn.
  apply String.eqb_neq in Hyml. rewrite Hyml. reflexivity.
Qed.

Lemma main_refuses_other_files_witness :
  main instance 5 "/out" ["app/base.yml"] appWorld
  = (inl (Fatal "Argument must be a kustomization root or yaml file"),
     logged (CStat "app/base.yml") appWorld).
Proof.
  apply (main_refuses_other_files instance 5 "/out" "app/base.yml" [] appWorld
           "kind: Deployment").
  - reflexivity.
  - vm_compute. discriminate.
  - vm_compute. discriminate.
Defined.

(** C4, as stated, fails: "app/base.yml" is an existing regular file, and the
    run on it ends in an error before the Manifest Resolver is reached. *)
Lemma main_file_argument_counterexample :
  OS.lookup appWorld "app/base.yml" = Some (Regular "kind: Deployment") /\
  fst (main instance 5 "/out" ["app/base.yml"] appWorld)
  = inl (Fatal "Argument must be a kustomization root or yaml file") /\
  trace (snd (main instance 5 "/out" ["app/base.yml"] appWorld)) = [CStat "app/base.yml"].
Proof. repeat split; reflexivity. Qed.

(** ** Strings *)

Lemma append_assoc (a b c : string) : ((a ++ b) ++ c = a ++ (b ++ c))%string.
Proof. induction a as [| x a IH]; cbn; [reflexivity | now rewrite IH]. Qed.

Lemma length_append (a b : string) :
  String.length (a ++ b) = String.length a + String.length b.
Proof. induction a as [| x a IH]; cbn; [reflexivity | now rewrite IH]. Qed.

Lemma prefix_refl (s : string) : String.prefix s s = true.
Proof.
  induction s as [| c s IH]; cbn; [reflexivity |].
  destruct (ascii_dec c c); [assumption | congruence].
Qed.

Lemma prefix_longer (sub s : string) :
  String.length s < String.length sub -> String.prefix sub s = false.
Proof.
  revert s. induction sub as [| c sub IH]; intros s Hlen; [cbn in Hlen; lia |].
  destruct s as [| d s]; cbn; [reflexivity |].
  destruct (ascii_dec c d); [| reflexivity].
  apply IH. cbn in Hlen. lia.
Qed.

Lemma prefix_append (sub s : string) : String.prefix sub (sub ++ s) = true.
Proof.
  induction sub as [| c sub IH]; cbn; [now destruct s |].
  destruct (ascii_dec c c); [assumption | congruence].
Qed.

(** No match starts where fewer bytes remain than [sub] has. *)
Lemma lastIndexFrom_short (sub s : string) (i acc : Z) :
  String.length s < String.length sub ->
  Strings.lastIndexFrom s sub i acc = acc.
Proof.
  revert i acc. induction s as [| c s IH]; intros i acc Hlen; cbn [Strings.lastIndexFrom].
  - now rewrite prefix_longer.
  - rewrite prefix_longer by assumption. apply IH. cbn in Hlen. lia.
Qed.

Lemma lastIndexFrom_suffix (sub pre : string) (i acc : Z) :
  sub <> EmptyString ->
  Strings.lastIndexFrom (pre ++ sub) sub i acc = (i + Z.of_nat (String.length pre))%Z.
Proof.
  intros Hsub. revert i acc. induction pre as [| c pre IH]; intros i acc.
  - cbn [String.append String.length]. destruct sub as [| c sub]; [congruence |].
    cbn [Strings.lastIndexFrom]. rewrite prefix_refl.
    rewrite lastIndexFrom_short by (cbn; lia). cbn. lia.
  - cbn [String.append Strings.lastIndexFrom String.length].
    rewrite IH. lia.
Qed.

Lemma HasSuffix_spec (s suf : string) :
  Strings.HasSuffix s suf = true <-> exists pre, s = (pre ++ suf)%string.
Proof.
  induction s as [| c s IH]; cbn [Strings.HasSuffix].
  - rewrite orb_false_r, String.eqb_eq. split.
    + intros <-. now exists "".
    + intros [[| d pre] H]; cbn in H; [congruence | discriminate].
  - rewrite orb_true_iff, String.eqb_eq, IH. split.
    + intros [<- | [pre ->]]; [now exists "" | now exists (String c pre)].
    + intros [[| d pre] H]; cbn in H; [left; congruence |].
      right. exists pre. congruence.
Qed.

(** A path that ends in ".jsonnet" is taken for a template. *)
Lemma isJsonnetFile_suffix (path : string) :
  Strings.HasSuffix path ".jsonnet" = true -> isJsonnetFile path = true.
Proof.
  intros H. apply HasSuffix_spec in H. destruct H as [pre ->].
  unfold isJsonnetFile, Strings.LastIndex.
  rewrite lastIndexFrom_suffix by discriminate.
  rewrite length_append. cbn [String.length]. apply Z.eqb_eq. lia.
Qed.

(** So is every path of exactly seven bytes: [strings.LastIndex] answers -1
    for it, which is its length less eight. *)
Lemma isJsonnetFile_seven (path : string) :
  String.length path = 7 -> isJsonnetFile path = true.
Proof.
  intros Hlen. unfold isJsonnetFile, Strings.LastIndex.
  rewrite lastIndexFrom_short by (rewrite Hlen; cbn; lia).
  rewrite Hlen. reflexivity.
Qed.

(** ** The classifier on concrete references *)

(** C2, at a failing input.  In the manifest directory ".", the reference
    "svc.yml" is local, relative, and does not end in ".jsonnet"; the joined
    path has seven bytes, [isJsonnetFile] answers true for it, and
    [processFileRef] takes the rendering branch: it runs the renderer on the
    file instead of copying it. *)
Theorem seven_byte_reference_is_rendered :
  let j := {| Base := "."; Output := "/out" |} in
  let w := flatWorld ["resources:"; "- svc.yml"] in
  Strings.HasSuffix "svc.yml" ".jsonnet" = false /\
  Filepath.IsAbs "svc.yml" = false /\
  Filepath.Join ["."; "svc.yml"] = "svc.yml" /\
  isLocalFile instance "svc.yml" = true /\
  Strings.LastIndex "svc.yml" ".jsonnet" = (-1)%Z /\
  isJsonnetFile "svc.yml" = true /\
  trace (snd (processFileRef instance j "." "svc.yml" w))
  = [CExec ["jsonnet"; "-o"; "/out/svc.yml.yml"; "svc.yml"]; CMkdirAll "/out"].
Proof.
  cbv zeta. repeat split; reflexivity.
Qed.

(** C6, at a failing input.  The same reference, resolved through [main]:
    the run succeeds, the rewritten manifest lists "svc.yml.yml" in place of
    "svc.yml", and the output tree holds no copy of the file under its own
    name. *)
Theorem seven_byte_reference_is_renamed :
  let j := {| Base := "."; Output := "/out" |} in
  let w := flatWorld ["resources:"; "- svc.yml"] in
  let r := main instance 5 "/out" ["."] w in
  OS.lookup w "svc.yml" = Some (Regular "{}") /\
  Strings.HasSuffix "svc.yml" ".jsonnet" = false /\
  fst (processFileRef instance j "." "svc.yml" w) = inr "svc.yml.yml" /\
  fst r = inr tt /\
  OS.lookup (snd r) "/out/kustomization.yml"
  = Some (manifest ["resources:"; "- svc.yml.yml"; ""]) /\
  OS.lookup (snd r) "/out/svc.yml" = None.
Proof.
  cbv zeta. repeat split; reflexivity.
Qed.

(** C1, at failing inputs.  A generator "https://example.com/plugin.yml" in
    the manifest directory "app": the path joined with the directory no longer
    starts with a scheme, so the reference is taken for a local file;
    directories are made for it in the output tree and the run fails when the
    source cannot be opened.  A resource "https://example.com/base.yml" in the
    manifest directory ".": the joined path is seen as non-local, but
    [processResource] calls [os.Lstat] on it first and the run fails there. *)
Theorem remote_reference_is_not_left_alone :
  let plugin := "https://example.com/plugin.yml" in
  let base := "https://example.com/base.yml" in
  let r := main instance 5 "/out" ["app"] (nestedWorld ["generators:"; "- https://example.com/plugin.yml"]) in
  let r' := main instance 5 "/out" ["."] (flatWorld ["resources:"; "- https://example.com/base.yml"]) in
  NetURL.Parse plugin = Some {| Scheme := "https" |} /\
  isLocalFile instance (Filepath.Join ["app"; plugin]) = true /\
  fst r = inl (PathError "open" "app/https:/example.com/plugin.yml") /\
  trace (snd r)
  = [COpen "app/https:/example.com/plugin.yml"; CMkdirAll "/out/app/https:/example.com";
     CReadFile "app/kustomization.yml"; CStat "app/kustomization.yml"; CStat "app"] /\
  OS.lookup (snd r) "/out/app/https:/example.com" = Some Directory /\
  NetURL.Parse base = Some {| Scheme := "https" |} /\
  isLocalFile instance (Filepath.Join ["."; base]) = false /\
  fst r' = inl (PathError "lstat" "https:/example.com/base.yml").
Proof. cbv zeta. repeat split; reflexivity. Qed.

(** ** Loading a manifest *)

Lemma manifestAt_inv (E : Collaborators) (root : string) (w : world) (kust : string)
    (k : Kustomization) :
  manifestAt E root w = Some (kust, k) ->
  exists w1 bytes,
    findKustFile root w = (inr kust, w1) /\
    OS.ReadFile kust w1 = (inr bytes, loaded root w) /\
    yaml_Unmarshal E bytes = Some k.
Proof.
  unfold manifestAt, loaded.
  destruct (findKustFile root w) as [[e | kust'] w1]; [discriminate |].
  destruct (OS.ReadFile kust' w1) as [[e | bytes] w2] eqn:Hread; [discriminate |].
  destruct (yaml_Unmarshal E bytes) as [k' |] eqn:Hk; [| discriminate].
  intros [= <- <-]. exists w1, bytes. repeat split; assumption.
Qed.

(** With its manifest loaded, a resolution is the three loops followed by the
    write of the rewritten manifest. *)
Lemma processKustomization_loaded (E : Collaborators) (fuel : nat) (j : Jsonnetizer)
    (oldRoot resource : string) (w : world) (kust : string) (k : Kustomization) :
  manifestAt E (Filepath.Join [oldRoot; resource]) w = Some (kust, k) ->
  processKustomization E (S fuel) j oldRoot resource w
  = (let root := Filepath.Join [oldRoot; resource] in
     resources <- processTypes E fuel j root ResourceType (Resources k) ;;
     generators <- processTypes E fuel j root PluginType (Generators k) ;;
     transformers <- processTypes E fuel j root PluginType (Transformers k) ;;
     f <- OS.Create (QualifyOutput j kust "") ;;
     match yaml_Marshal E
             {| Resources := resources; Generators := generators;
                Transformers := transformers; Others := Others k |} with
     | None => fail YamlError
     | Some bytes => OS.Write f bytes
     end)%go (loaded (Filepath.Join [oldRoot; resource]) w).
Proof.
  intros H. apply manifestAt_inv in H. destruct H as (w1 & bytes & Hfind & Hread & Hk).
  cbn [processKustomization]. unfold processKustomizationWith.
  cbv zeta. rewrite (bind_ok _ _ _ _ _ Hfind), (bind_ok _ _ _ _ _ Hread), Hk.
  reflexivity.
Qed.

(** ** Empty entries *)

Lemma processLoop_empty_entry (E : Collaborators)
    (recur : Jsonnetizer -> string -> string -> M unit) (j : Jsonnetizer) (root : string)
    (kustType : KustomizeType) (pre post : list string) :
  forall (acc : list string) (w : world),
    processLoop E recur j root kustType (pre ++ "" :: post) acc w
    = match processLoop E recur j root kustType pre acc w with
      | (inr _, w') => (inl (EmptyPath root), w')
      | (inl e, w') => (inl e, w')
      end.
Proof.
  induction pre as [| path pre IH]; intros acc w.
  - reflexivity.
  - cbn [app processLoop]. destruct (path =? "")%string; [reflexivity |].
    unfold bind.
    destruct (match kustType with
              | ResourceType => processResourceWith E recur j root path
              | PluginType => processPlugin E j root path
              end w) as [[e | updatedPath] w1]; [reflexivity |].
    apply IH.
Qed.

Lemma processTypes_empty_fails (E : Collaborators) (fuel : nat) (j : Jsonnetizer)
    (root : string) (kustType : KustomizeType) (paths : list string) (w : world) :
  In "" paths ->
  exists e, fst (processTypes E fuel j root kustType paths w) = inl e.
Proof.
  intros Hin. apply in_split in Hin. destruct Hin as (pre & post & ->).
  unfold processTypes, processTypesWith. rewrite processLoop_empty_entry.
  destruct (processLoop E (processKustomization E fuel) j root kustType pre [] w)
    as [[e | out] w']; cbn; eauto.
Qed.

(** C3, as the program behaves.  A list with an empty-string entry is
    processed as the entries before that entry are, and if those all succeed
    the loop fails there with the structural error "empty path", with no
    system call made for the empty entry or for any entry after it.  So a
    resolution whose manifest has an empty-string entry in one of its three
    lists never succeeds. *)
Theorem empty_entry_aborts (E : Collaborators) (fuel : nat) (j : Jsonnetizer) :
  (forall root kustType pre post w,
      processTypes E fuel j root kustType (pre ++ "" :: post) w
      = match processTypes E fuel j root kustType pre w with
        | (inr _, w') => (inl (EmptyPath root), w')
        | (inl e, w') => (inl e, w')
        end)
  /\ (forall root, structural (EmptyPath root) = true)
  /\ (forall oldRoot resource w kust k,
         manifestAt E (Filepath.Join [oldRoot; resource]) w = Some (kust, k) ->
         In "" (Resources k) \/ In "" (Generators k) \/ In "" (Transformers k) ->
         exists e, fst (processKustomization E fuel j oldRoot resource w) = inl e).
Proof.
  split; [| split].
  - intros. apply processLoop_empty_entry.
  - reflexivity.
  - intros oldRoot resource w kust k Hk Hin.
    destruct fuel as [| fuel]; [cbn; eauto |].
    rewrite (processKustomization_loaded _ _ _ _ _ _ _ _ Hk). cbv zeta.
    set (root := Filepath.Join [oldRoot; resource]). set (w2 := loaded root w).
    unfold bind at 1.
    destruct (processTypes E fuel j root ResourceType (Resources k) w2)
      as [[e | rs] w3] eqn:Hrs; [cbn; eauto |].
    unfold bind at 1.
    destruct (processTypes E fuel j root PluginType (Generators k) w3)
      as [[e | gs] w4] eqn:Hgs; [cbn; eauto |].
    unfold bind at 1.
    destruct (processTypes E fuel j root PluginType (Transformers k) w4)
      as [[e | ts] w5] eqn:Hts; [cbn; eauto |].
    exfalso. destruct Hin as [Hin | [Hin | Hin]].
    + destruct (processTypes_empty_fails E fuel j root ResourceType _ w2 Hin) as [e He].
      rewrite Hrs in He. discriminate.
    + destruct (processTypes_empty_fails E fuel j root PluginType _ w3 Hin) as [e He].
      rewrite Hgs in He. discriminate.
    + destruct (processTypes_empty_fails E fuel j root PluginType _ w4 Hin) as [e He].
      rewrite Hts in He. discriminate.
Qed.

Lemma empty_entry_aborts_witness :
  exists e,
    fst (processKustomization instance 5 {| Base := "app"; Output := "/out" |} "app" ""
           emptyEntryWorld) = inl e.
Proof.
  apply (proj2 (proj2 (empty_entry_aborts instance 5 {| Base := "app"; Output := "/out" |}))
           "app" "" emptyEntryWorld "app/kustomization.yml"
           {| Resources := ["svc.yml"; ""]; Generators := []; Transformers := [];
              Others := [] |}).
  - reflexivity.
  - left. right. left. reflexivity.
Defined.

(** C3, as stated, fails: with resources "svc.yml" and "", the run ends in the
    error "empty path", and by then "svc.yml" has been copied into the output
    tree. *)
Lemma empty_entry_counterexample :
  manifestAt instance "app" emptyEntryWorld
  = Some ("app/kustomization.yml",
          {| Resources := ["svc.yml"; ""]; Generators := []; Transformers := [];
             Others := [] |}) /\
  fst (main instance 5 "/out" ["app"] emptyEntryWorld) = inl (EmptyPath "app") /\
  OS.lookup emptyEntryWorld "/out/app/svc.yml" = None /\
  OS.lookup (snd (main instance 5 "/out" ["app"] emptyEntryWorld)) "/out/app/svc.yml"
  = Some (Regular "{}").
Proof. repeat split; reflexivity. Qed.

(** ** Cleaning keeps a final element *)

Lemma eqb_length (a b : string) :
  String.length a <> String.length b -> (a =? b)%string = false.
Proof. intros H. apply String.eqb_neq. intros ->. now apply H. Qed.

(** The elements of [a ++ b] when [b] has no separator: those of [a], the
    last one continued by [b]. *)
Lemma split_append (b : string) :
  Filepath.split b = [b] ->
  forall a, exists init l, Filepath.split (a ++ b) = init ++ [(l ++ b)%string].
Proof.
  intros Hb. induction a as [| c a (init & l & IH)].
  - exists [], "". exact Hb.
  - cbn [String.append Filepath.split]. destruct (Ascii.eqb c Filepath.slash).
    + exists ("" :: init), l. now rewrite IH.
    + rewrite IH. destruct init as [| h t].
      * now exists [], (String c l).
      * now exists (String c h :: t), l.
Qed.

Lemma concat_last (sep : string) (ys : list string) (x : string) :
  exists p, String.concat sep (ys ++ [x]) = (p ++ x)%string.
Proof.
  induction ys as [| y ys (p & IH)].
  - now exists "".
  - exists (y ++ sep ++ p)%string. cbn [app String.concat]. rewrite IH.
    destruct (ys ++ [x]) eqn:Hys; [now destruct ys |].
    now rewrite !append_assoc.
Qed.

(** An element that [Clean] neither drops nor resolves ends the result. *)
Lemma Clean_last (init : list string) (x path : string) :
  Filepath.split path = init ++ [x] ->
  2 < String.length x ->
  exists p, Filepath.Clean path = (p ++ x)%string.
Proof.
  intros Hsplit Hlen. unfold Filepath.Clean, Filepath.cleanElems.
  rewrite Hsplit, fold_left_app. cbn [fold_left].
  set (stk := fold_left _ init []).
  assert (Hstep : Filepath.cleanStep (Filepath.IsAbs path) stk x = x :: stk).
  { unfold Filepath.cleanStep. rewrite !eqb_length by (cbn; lia). reflexivity. }
  rewrite Hstep. cbn [rev].
  destruct (concat_last "/" (rev stk) x) as [p ->].
  destruct (Filepath.IsAbs path).
  - exists ("/" ++ p)%string. now rewrite append_assoc.
  - rewrite eqb_length; [now exists p |].
    rewrite length_append. cbn. lia.
Qed.

Lemma Clean_suffix (path suf : string) :
  Filepath.split suf = [suf] ->
  2 < String.length suf ->
  Strings.HasSuffix path suf = true ->
  Strings.HasSuffix (Filepath.Clean path) suf = true.
Proof.
  intros Hsuf Hlen H. apply HasSuffix_spec in H. destruct H as [pre ->].
  destruct (split_append suf Hsuf pre) as (init & l & Hsplit).
  destruct (Clean_last init (l ++ suf) _ Hsplit) as [p Hp].
  - rewrite length_append. lia.
  - apply HasSuffix_spec. exists (p ++ l)%string. now rewrite Hp, append_assoc.
Qed.

(** Joining a directory and a reference that ends in ".jsonnet" gives a path
    that ends in ".jsonnet". *)
Lemma Join_jsonnet (root path : string) :
  Strings.HasSuffix path ".jsonnet" = true ->
  Strings.HasSuffix (Filepath.Join [root; path]) ".jsonnet" = true.
Proof.
  intros H. unfold Filepath.Join.
  assert (Hne : (path =? "")%string = false).
  { apply eqb_length. apply HasSuffix_spec in H. destruct H as [pre ->].
    rewrite length_append. cbn. lia. }
  destruct (root =? "")%string.
  - rewrite Hne. apply Clean_suffix; [reflexivity | cbn; lia | exact H].
  - apply Clean_suffix; [reflexivity | cbn; lia |].
    apply HasSuffix_spec in H. destruct H as [pre ->].
    apply HasSuffix_spec. exists (root ++ "/" ++ pre)%string.
    cbn [String.concat]. now rewrite !append_assoc.
Qed.

(** ** The table *)

Lemma key_eqb_refl (k : key) : key_eqb k k = true.
Proof. unfold key_eqb. now destruct (list_eq_dec string_dec k k). Qed.

Lemma key_eqb_neq (k k' : key) : k <> k' -> key_eqb k k' = false.
Proof. unfold key_eqb. now destruct (list_eq_dec string_dec k k'). Qed.

Lemma upd_same (k : key) (n : node) (t : table) : upd k n t k = Some n.
Proof. unfold upd. now rewrite key_eqb_refl. Qed.

Lemma upd_other (k k' : key) (n : node) (t : table) : k <> k' -> upd k n t k' = t k'.
Proof. intros H. unfold upd. now rewrite key_eqb_neq. Qed.

(** ** Rendering a template *)

Lemma MkdirAll_ok (name : string) (w w' : world) :
  OS.MkdirAll name w = (inr tt, w') ->
  trace w' = CMkdirAll name :: trace w /\ cwd w' = cwd w.
Proof.
  unfold OS.MkdirAll. cbv zeta. destruct (name =? "")%string; [discriminate |].
  destruct (OS.mkdirFrom _ _ _); [| discriminate].
  intros [= <-]. split; reflexivity.
Qed.

Lemma runJsonnet_ok (E : Collaborators) (outputFile qPath : string) (w w' : world) :
  runJsonnet E outputFile qPath w = (inr tt, w') ->
  trace w' = CExec ["jsonnet"; "-o"; outputFile; qPath] :: trace w /\
  exists bytes,
    jsonnet E (logged (CExec ["jsonnet"; "-o"; outputFile; qPath]) w) qPath = Some bytes /\
    files w' (OS.resolve w' outputFile) = Some (Regular bytes).
Proof.
  unfold runJsonnet. cbv zeta.
  destruct (jsonnet E _ qPath) as [bytes |]; [| discriminate].
  destruct (OS.creatable _ outputFile); [| discriminate].
  intros [= <-]. split; [reflexivity |].
  exists bytes. split; [reflexivity |]. apply upd_same.
Qed.

(** The rendering branch.  For a reference that ends in ".jsonnet", is a
    relative path, and whose joined path the classifier takes as local, a successful
    [processFileRef] returns the reference with ".yml" appended, and the calls
    it made are one [os.MkdirAll] followed by exactly one run of the renderer,
    whose source is the reference joined to the manifest directory and whose
    destination is the output-tree path of the reference with ".yml" appended;
    that destination then holds what the renderer produced. *)
Theorem template_reference_is_rendered (E : Collaborators) (j : Jsonnetizer)
    (root path updatedPath : string) (w w' : world) :
  isLocalFile E (Filepath.Join [root; path]) = true ->
  Strings.HasSuffix path ".jsonnet" = true ->
  Filepath.IsAbs path = false ->
  processFileRef E j root path w = (inr updatedPath, w') ->
  let outputFile := (QualifyOutput j root path ++ ".yml")%string in
  updatedPath = (path ++ ".yml")%string /\
  trace w'
  = CExec ["jsonnet"; "-o"; outputFile; Filepath.Join [root; path]]
      :: CMkdirAll (Filepath.Dir outputFile) :: trace w /\
  exists bytes, files w' (OS.resolve w' outputFile) = Some (Regular bytes).
Proof.
  intros Hlocal Hsuffix Hrel Hrun outputFile. unfold processFileRef in Hrun.
  rewrite Hlocal, (isJsonnetFile_suffix _ (Join_jsonnet root path Hsuffix)), Hrel in Hrun.
  cbn [negb andb] in Hrun. fold outputFile in Hrun.
  apply bind_inr in Hrun. destruct Hrun as ([] & w1 & Hmk & Hrun).
  apply bind_inr in Hrun. destruct Hrun as ([] & w2 & Hjs & Hret).
  injection Hret as <- <-.
  apply MkdirAll_ok in Hmk. destruct Hmk as [Hmk _].
  apply runJsonnet_ok in Hjs. destruct Hjs as (Hjs & bytes & _ & Hfile).
  split; [reflexivity |]. split; [now rewrite Hjs, Hmk |]. now exists bytes.
Qed.

Lemma template_reference_is_rendered_witness :
  "config.jsonnet.yml" = ("config.jsonnet" ++ ".yml")%string /\
  trace (snd (processFileRef instance {| Base := "app"; Output := "/out" |}
                "app" "config.jsonnet" appWorld))
  = [CExec ["jsonnet"; "-o"; "/out/app/config.jsonnet.yml"; "app/config.jsonnet"];
     CMkdirAll "/out/app"] /\
  exists bytes,
    files (snd (processFileRef instance {| Base := "app"; Output := "/out" |}
                  "app" "config.jsonnet" appWorld))
      ["out"; "app"; "config.jsonnet.yml"] = Some (Regular bytes).
Proof.
  apply (template_reference_is_rendered instance {| Base := "app"; Output := "/out" |}
           "app" "config.jsonnet" "config.jsonnet.yml" appWorld
           (snd (processFileRef instance {| Base := "app"; Output := "/out" |}
                   "app" "config.jsonnet" appWorld)));
    reflexivity.
Defined.

(** ** Changes of the world *)

Lemma evolves_refl (w : world) : evolves w w.
Proof. constructor; eauto. Qed.

Lemma evolves_trans (w1 w2 w3 : world) : evolves w1 w2 -> evolves w2 w3 -> evolves w1 w3.
Proof.
  intros [c1 d1 r1 m1 f1] [c2 d2 r2 m2 f2]. constructor.
  - congruence.
  - auto.
  - intros k c H. destruct (r1 k c H) as [c' H']. eauto.
  - lia.
  - intros Heq k H. apply f1; [lia |]. apply f2; [lia | assumption].
Qed.

Lemma evolves_logged (c : call) (w : world) : evolves w (logged c w).
Proof.
  constructor; cbn; eauto; destruct c; cbn; intros; auto; lia.
Qed.

(** Writing a regular file where no directory is. *)
Lemma evolves_stored (k : key) (c : string) (w : world) :
  files w k <> Some Directory -> evolves w (stored k (Regular c) w).
Proof.
  intros Hk. constructor; cbn.
  - reflexivity.
  - intros k' H. rewrite upd_other; [assumption | congruence].
  - intros k' c' H. unfold upd. destruct (key_eqb k k'); eauto.
  - lia.
  - intros _ k' H. unfold upd in H. destruct (key_eqb k k'); [discriminate | assumption].
Qed.

Lemma mkdirFrom_keeps (rest : key) :
  forall (pre : key) (t t' : table),
    OS.mkdirFrom pre rest t = Some t' ->
    forall k n, t k = Some n -> t' k = Some n.
Proof.
  induction rest as [| e rest IH]; intros pre t t' H k n Hk; cbn [OS.mkdirFrom] in H.
  - destruct (t pre) as [[| c] |] eqn:Hpre; try discriminate; injection H as <-; auto.
    rewrite upd_other; [assumption | congruence].
  - destruct (t pre) as [[| c] |] eqn:Hpre; try discriminate.
    + eapply IH; eauto.
    + eapply IH; [eassumption |]. rewrite upd_other; [assumption | congruence].
Qed.

Lemma steady_ret {A} (a : A) : steady (ret a).
Proof. intros w. apply evolves_refl. Qed.

Lemma steady_fail {A} (e : error) : steady (@fail A e).
Proof. intros w. apply evolves_refl. Qed.

Lemma steady_bind {A B} (m : M A) (f : A -> M B) :
  steady m -> (forall a, steady (f a)) -> steady (bind m f).
Proof.
  intros Hm Hf w. unfold bind. specialize (Hm w).
  destruct (m w) as [[e | a] w1]; cbn in *; [assumption |].
  eapply evolves_trans; [eassumption | apply Hf].
Qed.

Lemma steady_attempt {A} (m : M A) : steady m -> steady (attempt m).
Proof.
  intros Hm w. unfold attempt. specialize (Hm w). now destruct (m w).
Qed.

Lemma creatable_not_dir (w : world) (name : string) :
  OS.creatable w name = true -> files w (OS.resolve w name) <> Some Directory.
Proof.
  unfold OS.creatable. intros H Hdir. rewrite Hdir in H.
  rewrite andb_true_iff in H. destruct H as [_ H].
  destruct (OS.resolve w name); [discriminate |].
  destruct (files w (removelast _)) as [[| c] |]; discriminate.
Qed.

Lemma creatable_needs_dir (w : world) (name : string) :
  files w (removelast (OS.resolve w name)) <> Some Directory ->
  OS.creatable w name = false.
Proof.
  unfold OS.creatable. intros H.
  destruct (OS.resolve w name) as [| e k]; [apply andb_false_r |].
  destruct (files w (removelast (e :: k))) as [[| c] |]; [congruence | |]; apply andb_false_r.
Qed.

Lemma resolve_cwd (w w' : world) (name : string) :
  cwd w' = cwd w -> OS.resolve w' name = OS.resolve w name.
Proof. unfold OS.resolve. now intros ->. Qed.

Lemma steady_Stat (name : string) : steady (OS.Stat name).
Proof.
  intros w. unfold OS.Stat. cbv zeta.
  destruct (OS.lookup _ name); apply evolves_logged.
Qed.

Lemma steady_Lstat (name : string) : steady (OS.Lstat name).
Proof.
  intros w. unfold OS.Lstat. cbv zeta.
  destruct (OS.lookup _ name); apply evolves_logged.
Qed.

Lemma steady_Open (name : string) : steady (OS.Open name).
Proof.
  intros w. unfold OS.Open. cbv zeta.
  destruct (OS.lookup _ name); apply evolves_logged.
Qed.

Lemma steady_ReadFile (name : string) : steady (OS.ReadFile name).
Proof.
  intros w. unfold OS.ReadFile. cbv zeta.
  destruct (OS.lookup _ name) as [[| c] |]; apply evolves_logged.
Qed.

Lemma steady_MkdirAll (name : string) : steady (OS.MkdirAll name).
Proof.
  intros w. unfold OS.MkdirAll. cbv zeta.
  destruct (name =? "")%string; [apply evolves_logged |].
  destruct (OS.mkdirFrom _ _ _) as [t |] eqn:Hmk; [| apply evolves_logged].
  cbn in Hmk. constructor; cbn.
  - reflexivity.
  - intros k H. eapply mkdirFrom_keeps; eassumption.
  - intros k c H. exists c. eapply mkdirFrom_keeps; eassumption.
  - lia.
  - lia.
Qed.

Lemma steady_Create (name : string) : steady (OS.Create name).
Proof.
  intros w. unfold OS.Create. cbv zeta.
  destruct (OS.creatable _ name) eqn:Hc; [| apply evolves_logged].
  eapply evolves_trans; [apply evolves_logged |].
  apply evolves_stored. now apply creatable_not_dir.
Qed.

Lemma steady_Write (f : OS.File) (bytes : string) : steady (OS.Write f bytes).
Proof.
  intros w. unfold OS.Write. cbv zeta.
  destruct (files _ _) as [[| held] |] eqn:Hf; try apply evolves_logged.
  eapply evolves_trans; [apply evolves_logged |].
  apply evolves_stored. congruence.
Qed.

Lemma steady_Copy (dst src : OS.File) : steady (OS.Copy dst src).
Proof.
  intros w. unfold OS.Copy. cbv zeta.
  destruct (files _ (OS.resolve _ src)) as [[| c] |]; try apply evolves_logged.
  destruct (files _ (OS.resolve _ dst)) as [[| held] |] eqn:Hf; try apply evolves_logged.
  eapply evolves_trans; [apply evolves_logged |].
  apply evolves_stored. congruence.
Qed.

Lemma steady_runJsonnet (E : Collaborators) (outputFile qPath : string) :
  steady (runJsonnet E outputFile qPath).
Proof.
  intros w. unfold runJsonnet. cbv zeta.
  destruct (jsonnet E _ qPath) as [bytes |]; [| apply evolves_logged].
  destruct (OS.creatable _ outputFile) eqn:Hc; [| apply evolves_logged].
  eapply evolves_trans; [apply evolves_logged |].
  apply evolves_stored. now apply creatable_not_dir.
Qed.

Lemma steady_runKustomize (E : Collaborators) (root : string) : steady (runKustomize E root).
Proof.
  intros w. unfold runKustomize. cbv zeta.
  destruct (kustomize E _ root); apply evolves_logged.
Qed.

Create HintDb steady.
#[local] Hint Resolve steady_ret steady_fail steady_attempt steady_Stat steady_Lstat
  steady_Open steady_ReadFile steady_MkdirAll steady_Create steady_Write steady_Copy
  steady_runJsonnet steady_runKustomize : steady.

Ltac steady_step :=
  repeat first
    [ apply steady_bind; [| intros ? ]
    | progress auto with steady
    | match goal with
      | |- steady (if ?b then _ else _) => destruct b
      | |- steady (match ?x with _ => _ end) => destruct x
      end ].

Lemma steady_copyFile (src dest : string) : steady (copyFile src dest).
Proof. unfold copyFile. steady_step. Qed.

#[local] Hint Resolve steady_copyFile : steady.

Lemma steady_processFileRef (E : Collaborators) (j : Jsonnetizer) (root path : string) :
  steady (processFileRef E j root path).
Proof.
  unfold processFileRef. cbv zeta. steady_step.
Qed.

#[local] Hint Resolve steady_processFileRef : steady.

Lemma steady_findKustFile (root : string) : steady (findKustFile root).
Proof. unfold findKustFile. cbv zeta. steady_step. Qed.

#[local] Hint Resolve steady_findKustFile : steady.

Section SteadyRecursion.

Variable E : Collaborators.
Variable recur : Jsonnetizer -> string -> string -> M unit.
Hypothesis steady_recur : forall j root path, steady (recur j root path).

Lemma steady_processResourceWith (j : Jsonnetizer) (root path : string) :
  steady (processResourceWith E recur j root path).
Proof. unfold processResourceWith. steady_step. Qed.

Lemma steady_entry (j : Jsonnetizer) (root : string) (kustType : KustomizeType)
    (path : string) :
  steady match kustType with
         | ResourceType => processResourceWith E recur j root path
         | PluginType => processPlugin E j root path
         end.
Proof.
  destruct kustType; [apply steady_processResourceWith | apply steady_processFileRef].
Qed.

Lemma steady_processLoop (j : Jsonnetizer) (root : string) (kustType : KustomizeType)
    (paths : list string) :
  forall finalResources, steady (processLoop E recur j root kustType paths finalResources).
Proof.
  induction paths as [| path rest IH]; intros acc; cbn [processLoop].
  - apply steady_ret.
  - destruct (path =? "")%string; [apply steady_fail |].
    apply steady_bind; [apply steady_entry | intros u; apply IH].
Qed.

Lemma steady_processKustomizationWith (j : Jsonnetizer) (oldRoot resource : string) :
  steady (processKustomizationWith E recur j oldRoot resource).
Proof.
  unfold processKustomizationWith, processTypesWith. cbv zeta.
  apply steady_bind; [apply steady_findKustFile | intros kust].
  apply steady_bind; [apply steady_ReadFile | intros bytes].
  destruct (yaml_Unmarshal E bytes) as [k |]; [| apply steady_fail].
  repeat (apply steady_bind; [apply steady_processLoop | intros ?]).
  apply steady_bind; [apply steady_Create | intros f].
  destruct (yaml_Marshal E _); [apply steady_Write | apply steady_fail].
Qed.

End SteadyRecursion.

Lemma steady_processKustomization (E : Collaborators) (fuel : nat) :
  forall j oldRoot resource, steady (processKustomization E fuel j oldRoot resource).
Proof.
  induction fuel as [| fuel IH]; intros j oldRoot resource; cbn [processKustomization].
  - apply steady_fail.
  - now apply steady_processKustomizationWith.
Qed.

Lemma steady_processTypes (E : Collaborators) (fuel : nat) (j : Jsonnetizer) (root : string)
    (kustType : KustomizeType) (paths : list string) :
  steady (processTypes E fuel j root kustType paths).
Proof. apply steady_processLoop, steady_processKustomization. Qed.

Lemma steady_processResource (E : Collaborators) (fuel : nat) (j : Jsonnetizer)
    (root path : string) :
  steady (processResource E fuel j root path).
Proof. apply steady_processResourceWith, steady_processKustomization. Qed.

Lemma evolves_run {A} (m : M A) (w w' : world) (r : error + A) :
  steady m -> m w = (r, w') -> evolves w w'.
Proof. intros Hm H. specialize (Hm w). now rewrite H in Hm. Qed.

Lemma evolves_loaded (root : string) (w : world) : evolves w (loaded root w).
Proof.
  unfold loaded. pose proof (steady_findKustFile root w) as H1.
  destruct (findKustFile root w) as [[e | kust] w1]; cbn in H1; [assumption |].
  eapply evolves_trans; [eassumption | apply steady_ReadFile].
Qed.

(** ** What a successful resolution did *)

Lemma processFileRef_rewrites (E : Collaborators) (j : Jsonnetizer) (root path out : string)
    (w w' : world) :
  processFileRef E j root path w = (inr out, w') -> rewrites path out.
Proof.
  unfold processFileRef. cbv zeta. destruct (negb _).
  - intros [= <- _]. now left.
  - destruct (_ && _); intros H.
    + apply bind_inr in H. destruct H as (_ & w1 & _ & H).
      apply bind_inr in H. destruct H as (_ & w2 & _ & H).
      injection H as <- _. now right.
    + apply bind_inr in H. destruct H as (_ & w1 & _ & H).
      injection H as <- _. now left.
Qed.

Lemma entryResolved_rewrites (E : Collaborators)
    (recur : Jsonnetizer -> string -> string -> M unit) (j : Jsonnetizer) (root : string)
    (kustType : KustomizeType) (w w' : world) (path out : string) :
  entryResolved E recur j root kustType w w' path out -> rewrites path out.
Proof.
  intros (wa & wb & _ & _ & H). destruct kustType.
  - unfold processResourceWith in H.
    apply bind_inr in H. destruct H as (si & w1 & _ & H).
    destruct (OS.IsDir si).
    + apply bind_inr in H. destruct H as (_ & w2 & _ & H).
      injection H as <- _. now left.
    + apply bind_inr in H. destruct H as (u & w2 & Hu & H).
      injection H as <- _. eapply processFileRef_rewrites; eassumption.
  - eapply processFileRef_rewrites; eassumption.
Qed.

Lemma entryResolved_widen (E : Collaborators)
    (recur : Jsonnetizer -> string -> string -> M unit) (j : Jsonnetizer) (root : string)
    (kustType : KustomizeType) (w0 w w' w1 : world) (path out : string) :
  evolves w0 w -> evolves w' w1 ->
  entryResolved E recur j root kustType w w' path out ->
  entryResolved E recur j root kustType w0 w1 path out.
Proof.
  intros H0 H1 (wa & wb & Ha & Hb & H). exists wa, wb.
  split; [eapply evolves_trans; eassumption |].
  split; [eapply evolves_trans; eassumption | assumption].
Qed.

(** The loop of [processTypes] resolves the entries one by one, in order, and
    appends one output per entry. *)
Lemma processLoop_entries (E : Collaborators)
    (recur : Jsonnetizer -> string -> string -> M unit) (j : Jsonnetizer) (root : string)
    (kustType : KustomizeType) :
  (forall j root path, steady (recur j root path)) ->
  forall (paths acc out : list string) (w w' : world),
    processLoop E recur j root kustType paths acc w = (inr out, w') ->
    exists outs,
      out = acc ++ outs /\
      Forall2 (entryResolved E recur j root kustType w w') paths outs.
Proof.
  intros Hrecur. induction paths as [| path rest IH]; intros acc out w w' H;
    cbn [processLoop] in H.
  - injection H as <- <-. exists []. split; [now rewrite app_nil_r | constructor].
  - destruct (path =? "")%string; [discriminate |].
    apply bind_inr in H. destruct H as (u & w1 & Hu & H).
    pose proof (evolves_run _ _ _ _ (steady_entry E recur Hrecur j root kustType path) Hu)
      as Hw1.
    pose proof (evolves_run _ _ _ _
                  (steady_processLoop E recur Hrecur j root kustType rest _) H) as Hw'.
    apply IH in H. destruct H as (outs & -> & Hall).
    exists (u :: outs). split; [now rewrite <- app_assoc |].
    constructor.
    + exists w, w1. split; [apply evolves_refl |]. split; assumption.
    + eapply Forall2_impl; [| exact Hall].
      intros p o. apply entryResolved_widen; [assumption | apply evolves_refl].
Qed.

Lemma processTypes_entries (E : Collaborators) (fuel : nat) (j : Jsonnetizer) (root : string)
    (kustType : KustomizeType) (paths out : list string) (w w' : world) :
  processTypes E fuel j root kustType paths w = (inr out, w') ->
  Forall2 (entryResolved E (processKustomization E fuel) j root kustType w w') paths out.
Proof.
  intros H. apply processLoop_entries in H; [| apply steady_processKustomization].
  now destruct H as (outs & -> & H).
Qed.

Lemma Create_then_Write (name bytes : string) (f : OS.File) (w w1 w' : world) :
  OS.Create name w = (inr f, w1) ->
  OS.Write f bytes w1 = (inr tt, w') ->
  trace w' = CWrite name bytes :: CCreate name :: trace w /\
  files w' (OS.resolve w' name) = Some (Regular bytes).
Proof.
  unfold OS.Create. cbv zeta. destruct (OS.creatable _ name); [| discriminate].
  intros [= <- <-]. unfold OS.Write. cbv zeta.
  change (OS.resolve (logged (CWrite name bytes)
                        (stored (OS.resolve (logged (CCreate name) w) name) (Regular "")
                           (logged (CCreate name) w))) name)
    with (OS.resolve w name).
  change (OS.resolve (logged (CCreate name) w) name) with (OS.resolve w name).
  cbn [files logged stored]. rewrite upd_same. intros [= <-].
  split; [reflexivity |]. cbn. apply upd_same.
Qed.

Lemma processKustomization_ok (E : Collaborators) (fuel : nat) (j : Jsonnetizer)
    (oldRoot resource : string) (w w' : world) :
  processKustomization E (S fuel) j oldRoot resource w = (inr tt, w') ->
  let root := Filepath.Join [oldRoot; resource] in
  exists kust k rs gs ts w3 w4 w5 bytes,
    manifestAt E root w = Some (kust, k) /\
    processTypes E fuel j root ResourceType (Resources k) (loaded root w) = (inr rs, w3) /\
    processTypes E fuel j root PluginType (Generators k) w3 = (inr gs, w4) /\
    processTypes E fuel j root PluginType (Transformers k) w4 = (inr ts, w5) /\
    yaml_Marshal E {| Resources := rs; Generators := gs; Transformers := ts;
                      Others := Others k |} = Some bytes /\
    trace w' = CWrite (QualifyOutput j kust "") bytes
                 :: CCreate (QualifyOutput j kust "") :: trace w5 /\
    files w' (OS.resolve w' (QualifyOutput j kust "")) = Some (Regular bytes) /\
    evolves w5 w'.
Proof.
  intros H root. cbn [processKustomization] in H. unfold processKustomizationWith in H.
  cbv zeta in H. fold root in H.
  apply bind_inr in H. destruct H as (kust & w1 & Hfind & H).
  apply bind_inr in H. destruct H as (bytes0 & w2 & Hread & H).
  destruct (yaml_Unmarshal E bytes0) as [k |] eqn:Hk; [| discriminate].
  apply bind_inr in H. destruct H as (rs & w3 & Hrs & H).
  apply bind_inr in H. destruct H as (gs & w4 & Hgs & H).
  apply bind_inr in H. destruct H as (ts & w5 & Hts & H).
  apply bind_inr in H. destruct H as (f & w6 & Hcreate & H).
  destruct (yaml_Marshal E _) as [bytes |] eqn:Hm; [| discriminate].
  destruct (Create_then_Write _ _ _ _ _ _ Hcreate H) as [Htrace Hfile].
  assert (Hloaded : loaded root w = w2).
  { unfold loaded. now rewrite Hfind, Hread. }
  assert (Hev : evolves w5 w').
  { eapply evolves_trans.
    - eapply evolves_run; [apply steady_Create | exact Hcreate].
    - eapply evolves_run; [apply steady_Write | exact H]. }
  exists kust, k, rs, gs, ts, w3, w4, w5, bytes. rewrite Hloaded.
  split; [unfold manifestAt; now rewrite Hfind, Hread, Hk |].
  repeat (split; [assumption |]). assumption.
Qed.

(** ** Rewriting a manifest *)

(** C7.  A successful resolution of a manifest with N resource, M generator
    and K transformer entries ends by writing, at the manifest's path in the
    output tree, the serialization of a manifest whose three lists have N, M
    and K entries: entry by entry and in the same order, each is the input
    reference itself or the input reference with ".yml" appended. *)
Theorem rewriting_keeps_length_and_order (E : Collaborators) (fuel : nat) (j : Jsonnetizer)
    (oldRoot resource : string) (w w' : world) :
  processKustomization E fuel j oldRoot resource w = (inr tt, w') ->
  exists kust k k' bytes,
    manifestAt E (Filepath.Join [oldRoot; resource]) w = Some (kust, k) /\
    yaml_Marshal E k' = Some bytes /\
    (exists t, trace w' = CWrite (QualifyOutput j kust "") bytes :: t) /\
    files w' (OS.resolve w' (QualifyOutput j kust "")) = Some (Regular bytes) /\
    List.length (Resources k') = List.length (Resources k) /\
    List.length (Generators k') = List.length (Generators k) /\
    List.length (Transformers k') = List.length (Transformers k) /\
    Forall2 rewrites (Resources k) (Resources k') /\
    Forall2 rewrites (Generators k) (Generators k') /\
    Forall2 rewrites (Transformers k) (Transformers k').
Proof.
  destruct fuel as [| fuel]; [discriminate |]. intros H.
  apply processKustomization_ok in H. cbv zeta in H.
  destruct H as (kust & k & rs & gs & ts & w3 & w4 & w5 & bytes
                 & Hk & Hrs & Hgs & Hts & Hm & Htrace & Hfile & _).
  apply processTypes_entries in Hrs, Hgs, Hts.
  assert (Hrw : forall ty wa wb paths outs,
             Forall2 (entryResolved E (processKustomization E fuel) j
                        (Filepath.Join [oldRoot; resource]) ty wa wb) paths outs ->
             Forall2 rewrites paths outs).
  { intros ty wa wb paths outs. apply Forall2_impl.
    intros p o. apply entryResolved_rewrites. }
  apply Hrw in Hrs, Hgs, Hts.
  exists kust, k,
    {| Resources := rs; Generators := gs; Transformers := ts; Others := Others k |}, bytes.
  cbn [Resources Generators Transformers].
  repeat split; try assumption.
  - eexists. exact Htrace.
  - symmetry. eapply Forall2_length; eassumption.
  - symmetry. eapply Forall2_length; eassumption.
  - symmetry. eapply Forall2_length; eassumption.
Qed.

Lemma rewriting_keeps_length_and_order_witness :
  exists kust k k' bytes,
    manifestAt instance (Filepath.Join ["app"; ""]) appWorld = Some (kust, k) /\
    yaml_Marshal instance k' = Some bytes /\
    (exists t,
        trace (snd (processKustomization instance 5 {| Base := "app"; Output := "/out" |}
                      "app" "" appWorld))
        = CWrite (QualifyOutput {| Base := "app"; Output := "/out" |} kust "") bytes :: t) /\
    files (snd (processKustomization instance 5 {| Base := "app"; Output := "/out" |}
                  "app" "" appWorld))
      (OS.resolve (snd (processKustomization instance 5 {| Base := "app"; Output := "/out" |}
                          "app" "" appWorld))
         (QualifyOutput {| Base := "app"; Output := "/out" |} kust ""))
    = Some (Regular bytes) /\
    List.length (Resources k') = List.length (Resources k) /\
    List.length (Generators k') = List.length (Generators k) /\
    List.length (Transformers k') = List.length (Transformers k) /\
    Forall2 rewrites (Resources k) (Resources k') /\
    Forall2 rewrites (Generators k) (Generators k') /\
    Forall2 rewrites (Transformers k) (Transformers k').
Proof.
  apply (rewriting_keeps_length_and_order instance 5 {| Base := "app"; Output := "/out" |}
           "app" "" appWorld).
  reflexivity.
Defined.

(** ** Writing the rewritten manifest *)

Lemma Create_fails (name : string) (w : world) :
  files w (removelast (OS.resolve w name)) <> Some Directory ->
  OS.Create name w = (inl (PathError "open" name), logged (CCreate name) w).
Proof.
  intros H. unfold OS.Create. cbv zeta.
  now rewrite (creatable_needs_dir (logged (CCreate name) w) name H).
Qed.

Lemma processTypes_nil (E : Collaborators) (fuel : nat) (j : Jsonnetizer) (root : string)
    (kustType : KustomizeType) (w : world) :
  processTypes E fuel j root kustType [] w = (inr [], w).
Proof. reflexivity. Qed.

(** Locating and reading the manifest makes no directory. *)
Lemma loaded_mkdirs (root : string) (w : world) :
  mkdirs (trace (loaded root w)) = mkdirs (trace w).
Proof.
  unfold loaded, findKustFile, bind, attempt, OS.Stat, OS.ReadFile. cbv zeta.
  repeat match goal with
         | |- context [match OS.lookup ?w ?n with _ => _ end] =>
             destruct (OS.lookup w n) as [[| ?] |]; cbn
         end; reflexivity.
Qed.

(** C10.  [os.Create] of the rewritten manifest makes no directory.  Take a
    manifest whose place in the output tree lies in a directory that does not
    exist.  A resolution of it during which [os.MkdirAll] was never called,
    that is, one that copied and rendered nothing, fails; when its three loops
    succeed without such a call, it fails in the [os.Create] of the manifest
    write; and when its three lists are empty, that is how it ends. *)
Theorem manifest_write_needs_directory (E : Collaborators) (fuel : nat) (j : Jsonnetizer)
    (oldRoot resource : string) (w : world) (kust : string) (k : Kustomization) :
  let root := Filepath.Join [oldRoot; resource] in
  let output := QualifyOutput j kust "" in
  let r := processKustomization E (S fuel) j oldRoot resource w in
  manifestAt E root w = Some (kust, k) ->
  files w (removelast (OS.resolve w output)) <> Some Directory ->
  (mkdirs (trace (snd r)) = mkdirs (trace w) -> exists e, fst r = inl e) /\
  (forall rs gs ts w3 w4 w5,
      processTypes E fuel j root ResourceType (Resources k) (loaded root w) = (inr rs, w3) ->
      processTypes E fuel j root PluginType (Generators k) w3 = (inr gs, w4) ->
      processTypes E fuel j root PluginType (Transformers k) w4 = (inr ts, w5) ->
      mkdirs (trace w5) = mkdirs (trace w) ->
      r = (inl (PathError "open" output), logged (CCreate output) w5)) /\
  (Resources k = [] -> Generators k = [] -> Transformers k = [] ->
   r = (inl (PathError "open" output), logged (CCreate output) (loaded root w))).
Proof.
  intros root output r Hk Hdir.
  assert (Hrun : r = (resources <- processTypes E fuel j root ResourceType (Resources k) ;;
                      generators <- processTypes E fuel j root PluginType (Generators k) ;;
                      transformers <- processTypes E fuel j root PluginType (Transformers k) ;;
                      f <- OS.Create output ;;
                      match yaml_Marshal E
                              {| Resources := resources; Generators := generators;
                                 Transformers := transformers; Others := Others k |} with
                      | None => fail YamlError
                      | Some bytes => OS.Write f bytes
                      end)%go (loaded root w)).
  { apply processKustomization_loaded. exact Hk. }
  assert (Hwrite : forall rs gs ts w3 w4 w5,
             processTypes E fuel j root ResourceType (Resources k) (loaded root w)
             = (inr rs, w3) ->
             processTypes E fuel j root PluginType (Generators k) w3 = (inr gs, w4) ->
             processTypes E fuel j root PluginType (Transformers k) w4 = (inr ts, w5) ->
             mkdirs (trace w5) = mkdirs (trace w) ->
             r = (inl (PathError "open" output), logged (CCreate output) w5)).
  { intros rs gs ts w3 w4 w5 Hrs Hgs Hts Hmk.
    assert (Hev : evolves w w5).
    { eapply evolves_trans; [apply evolves_loaded |].
      eapply evolves_trans; [eapply evolves_run; [apply steady_processTypes | exact Hrs] |].
      eapply evolves_trans; [eapply evolves_run; [apply steady_processTypes | exact Hgs] |].
      eapply evolves_run; [apply steady_processTypes | exact Hts]. }
    rewrite Hrun.
    rewrite (bind_ok _ _ _ _ _ Hrs), (bind_ok _ _ _ _ _ Hgs), (bind_ok _ _ _ _ _ Hts).
    apply bind_err, Create_fails.
    rewrite (resolve_cwd w w5 output (ev_cwd _ _ Hev)).
    intros Hd. apply Hdir. exact (ev_frame _ _ Hev Hmk _ Hd). }
  split; [| split].
  - intros Hmk.
    destruct (processTypes E fuel j root ResourceType (Resources k) (loaded root w))
      as [[e | rs] w3] eqn:Hrs;
      [rewrite Hrun, (bind_err _ _ _ _ _ Hrs); cbn; eauto |].
    destruct (processTypes E fuel j root PluginType (Generators k) w3)
      as [[e | gs] w4] eqn:Hgs;
      [rewrite Hrun, (bind_ok _ _ _ _ _ Hrs), (bind_err _ _ _ _ _ Hgs); cbn; eauto |].
    destruct (processTypes E fuel j root PluginType (Transformers k) w4)
      as [[e | ts] w5] eqn:Hts;
      [rewrite Hrun, (bind_ok _ _ _ _ _ Hrs), (bind_ok _ _ _ _ _ Hgs),
         (bind_err _ _ _ _ _ Hts); cbn; eauto |].
    assert (Hev : evolves w w5).
    { eapply evolves_trans; [apply evolves_loaded |].
      eapply evolves_trans; [eapply evolves_run; [apply steady_processTypes | exact Hrs] |].
      eapply evolves_trans; [eapply evolves_run; [apply steady_processTypes | exact Hgs] |].
      eapply evolves_run; [apply steady_processTypes | exact Hts]. }
    assert (Hev' : evolves w5 (snd r)).
    { rewrite Hrun.
      rewrite (bind_ok _ _ _ _ _ Hrs), (bind_ok _ _ _ _ _ Hgs), (bind_ok _ _ _ _ _ Hts).
      apply steady_bind; [apply steady_Create | intros f].
      destruct (yaml_Marshal E _); [apply steady_Write | apply steady_fail]. }
    rewrite (Hwrite rs gs ts w3 w4 w5 eq_refl Hgs Hts); [cbn; eauto |].
    pose proof (ev_mkdirs _ _ Hev). pose proof (ev_mkdirs _ _ Hev'). lia.
  - exact Hwrite.
  - intros Hr Hg Ht.
    apply (Hwrite [] [] [] (loaded root w) (loaded root w) (loaded root w)).
    + rewrite Hr. apply processTypes_nil.
    + rewrite Hg. apply processTypes_nil.
    + rewrite Ht. apply processTypes_nil.
    + apply loaded_mkdirs.
Qed.

Lemma manifest_write_needs_directory_witness :
  processKustomization instance 1 {| Base := "app"; Output := "/out" |} "app" ""
    (nestedWorld [])
  = (inl (PathError "open" "/out/app/kustomization.yml"),
     logged (CCreate "/out/app/kustomization.yml") (loaded "app" (nestedWorld []))).
Proof.
  apply (proj2 (proj2 (manifest_write_needs_directory instance 0
                         {| Base := "app"; Output := "/out" |} "app" "" (nestedWorld [])
                         "app/kustomization.yml"
                         {| Resources := []; Generators := []; Transformers := [];
                            Others := [] |}
                         eq_refl
                         ltac:(vm_compute; discriminate))));
    reflexivity.
Defined.

(** ** Directories among the resources *)

Lemma Forall2_nth_error {A B} (R : A -> B -> Prop) (l1 : list A) (l2 : list B) :
  Forall2 R l1 l2 ->
  forall i a, nth_error l1 i = Some a -> exists b, nth_error l2 i = Some b /\ R a b.
Proof.
  induction 1 as [| x y l1 l2 Hxy _ IH]; intros [| i] a Ha; cbn in *; try discriminate.
  - injection Ha as <-. eauto.
  - eauto.
Qed.

Lemma lookup_directory (w : world) (name : string) :
  OS.lookup w name = Some Directory <->
  (name =? "")%string = false /\ files w (OS.resolve w name) = Some Directory.
Proof.
  unfold OS.lookup. destruct (name =? "")%string.
  - split; [discriminate | intros [H _]; discriminate].
  - destruct (files w (OS.resolve w name)) as [[| c] |].
    + tauto.
    + split; [destruct (OS.endsInSlash name); discriminate | intros [_ H]; discriminate].
    + split; [discriminate | intros [_ H]; discriminate].
Qed.

(** A directory is still one later in the run. *)
Lemma lookup_directory_later (w w' : world) (name : string) :
  evolves w w' -> OS.lookup w name = Some Directory -> OS.lookup w' name = Some Directory.
Proof.
  intros Hev H. apply lookup_directory in H. destruct H as [Hne Hdir].
  apply lookup_directory. split; [assumption |].
  rewrite (resolve_cwd w w' name (ev_cwd _ _ Hev)). now apply (ev_dir _ _ Hev).
Qed.

Lemma findKustFile_names (root kust : string) (w w1 : world) :
  findKustFile root w = (inr kust, w1) ->
  kust = Filepath.Join [root; "kustomization.yml"] \/
  kust = Filepath.Join [root; "kustomization.yaml"].
Proof.
  unfold findKustFile, bind, attempt, OS.Stat. cbv zeta.
  destruct (OS.lookup _ (Filepath.Join [root; "kustomization.yml"])) as [n |]; cbn.
  - destruct (negb _); cbn; [discriminate |]. intros [= <- _]. now left.
  - destruct (OS.lookup _ (Filepath.Join [root; "kustomization.yaml"])) as [n |]; cbn;
      [| discriminate].
    destruct (negb _); cbn; [discriminate |]. intros [= <- _]. now right.
Qed.

(** What [processResource] does with a directory. *)
Lemma processResourceWith_directory (E : Collaborators)
    (recur : Jsonnetizer -> string -> string -> M unit) (j : Jsonnetizer)
    (root path : string) (w : world) :
  OS.lookup w (Filepath.Join [root; path]) = Some Directory ->
  processResourceWith E recur j root path w
  = (recur j root path ;;; ret path)%go (logged (CLstat (Filepath.Join [root; path])) w).
Proof.
  intros Hdir. unfold processResourceWith.
  assert (Hstat : OS.Lstat (Filepath.Join [root; path]) w
                  = (inr (OS.info (Filepath.Join [root; path]) Directory),
                     logged (CLstat (Filepath.Join [root; path])) w)).
  { unfold OS.Lstat. cbv zeta. now rewrite lookup_logged, Hdir. }
  now rewrite (bind_ok _ _ _ _ _ Hstat).
Qed.

(** ** The classifier, in general *)

Lemma append_empty (s : string) : (s ++ "")%string = s.
Proof. induction s as [| c s IH]; cbn; [reflexivity | now rewrite IH]. Qed.

Lemma prefix_true (sub s : string) :
  String.prefix sub s = true -> exists rest, s = (sub ++ rest)%string.
Proof.
  revert s. induction sub as [| c sub IH]; intros s H.
  - now exists s.
  - destruct s as [| d s]; cbn in H; [discriminate |].
    destruct (ascii_dec c d) as [<- |]; [| discriminate].
    destruct (IH s H) as [rest ->]. now exists rest.
Qed.

(** What the scan of [strings.LastIndex] returns: the value it started with,
    or the index of an instance of [sub]. *)
Lemma lastIndexFrom_cases (sub s : string) :
  forall i acc,
    Strings.lastIndexFrom s sub i acc = acc \/
    exists a b, s = (a ++ sub ++ b)%string /\
                Strings.lastIndexFrom s sub i acc = (i + Z.of_nat (String.length a))%Z.
Proof.
  induction s as [| c s IH]; intros i acc; cbn [Strings.lastIndexFrom].
  - destruct (String.prefix sub "") eqn:Hp; [| now left].
    right. destruct (prefix_true _ _ Hp) as [rest Hrest].
    exists "", rest. split; [exact Hrest | cbn; lia].
  - destruct (IH (i + 1)%Z (if String.prefix sub (String c s) then i else acc))
      as [Hkeep | (a & b & -> & Hfound)].
    + rewrite Hkeep. destruct (String.prefix sub (String c s)) eqn:Hp; [| now left].
      right. destruct (prefix_true _ _ Hp) as [rest Hrest].
      exists "", rest. split; [exact Hrest | cbn; lia].
    + right. exists (String c a), b. split; [reflexivity |].
      rewrite Hfound. cbn [String.length]. lia.
Qed.

(** X5.  [isJsonnetFile] answers true exactly for the paths that end in
    ".jsonnet" and for the paths of seven bytes. *)
Lemma isJsonnetFile_spec (path : string) :
  isJsonnetFile path = true <->
  Strings.HasSuffix path ".jsonnet" = true \/ String.length path = 7.
Proof.
  split.
  - unfold isJsonnetFile, Strings.LastIndex. intros H. apply Z.eqb_eq in H.
    destruct (lastIndexFrom_cases ".jsonnet" path 0 (-1)) as [Hnone | (a & b & Hpath & Hat)].
    + right. lia.
    + left. apply HasSuffix_spec. exists a.
      rewrite Hat in H. rewrite Hpath, !length_append in H. cbn [String.length] in H.
      destruct b as [| c b]; [| cbn [String.length] in H; lia].
      now rewrite Hpath, append_empty.
  - intros [H | H]; [now apply isJsonnetFile_suffix | now apply isJsonnetFile_seven].
Qed.

(** A reference whose joined path is seen as non-local is returned as it is,
    and no call is made for it. *)
Lemma processFileRef_nonlocal (E : Collaborators) (j : Jsonnetizer) (root path : string)
    (w : world) :
  isLocalFile E (Filepath.Join [root; path]) = false ->
  processFileRef E j root path w = (inr path, w).
Proof. intros H. unfold processFileRef. now rewrite H. Qed.

(** With the manifest directory "." the joined path of a URL keeps its
    scheme, and a generator that is a URL passes through. *)
Example remote_generator_under_dot :
  processTypes instance 5 {| Base := "."; Output := "/out" |} "." PluginType
    ["https://example.com/plugin.yml"] (flatWorld [])
  = (inr ["https://example.com/plugin.yml"], flatWorld []).
Proof. reflexivity. Qed.

(** The guard of [main] also refuses a file that has a manifest's name. *)
Example manifest_file_argument_refused :
  fst (main instance 5 "/out" ["app/kustomization.yml"] appWorld)
  = inl (Fatal "Argument must be a kustomization root or yaml file").
Proof. reflexivity. Qed.

(** ** Copying a literal file *)

Lemma mkdirFrom_regular (rest : key) :
  forall (pre : key) (t t' : table),
    OS.mkdirFrom pre rest t = Some t' ->
    forall k c, t' k = Some (Regular c) -> t k = Some (Regular c).
Proof.
  induction rest as [| e rest IH]; intros pre t t' H k c Hk; cbn [OS.mkdirFrom] in H.
  - destruct (t pre) as [[| c'] |] eqn:Hpre; try discriminate; injection H as <-; auto.
    unfold upd in Hk. destruct (key_eqb pre k); [discriminate | assumption].
  - destruct (t pre) as [[| c'] |] eqn:Hpre; try discriminate.
    + eapply IH; eauto.
    + specialize (IH _ _ _ H k c Hk). unfold upd in IH.
      destruct (key_eqb pre k); [discriminate | assumption].
Qed.

(** A successful [copyFile] leaves the destination holding what the source
    holds; the source is as it was, unless the two names denote one file. *)
Lemma copyFile_ok (src dest : string) (w w' : world) :
  copyFile src dest w = (inr tt, w') ->
  exists c,
    files w' (OS.resolve w' src) = Some (Regular c) /\
    files w' (OS.resolve w' dest) = Some (Regular c) /\
    (OS.resolve w src <> OS.resolve w dest -> files w (OS.resolve w src) = Some (Regular c)).
Proof.
  unfold copyFile. intros H.
  apply bind_inr in H. destruct H as ([] & w1 & Hmk & H).
  apply bind_inr in H. destruct H as (open & w2 & Hopen & H).
  apply bind_inr in H. destruct H as (create & w3 & Hcreate & Hcopy).
  unfold OS.MkdirAll in Hmk. cbv zeta in Hmk.
  destruct (Filepath.Dir dest =? "")%string; [discriminate |].
  destruct (OS.mkdirFrom _ _ _) as [t |] eqn:Hfrom; [| discriminate].
  injection Hmk as <-.
  unfold OS.Open in Hopen. cbv zeta in Hopen.
  destruct (OS.lookup _ src); [| discriminate]. injection Hopen as <- <-.
  unfold OS.Create in Hcreate. cbv zeta in Hcreate.
  destruct (OS.creatable _ dest); [| discriminate]. injection Hcreate as <- <-.
  unfold OS.Copy in Hcopy. cbv zeta in Hcopy.
  cbn [files logged stored cwd] in Hcopy.
  set (ks := OS.resolve w src). set (kd := OS.resolve w dest).
  repeat match type of Hcopy with
         | context [OS.resolve ?x src] => change (OS.resolve x src) with ks in Hcopy
         | context [OS.resolve ?x dest] => change (OS.resolve x dest) with kd in Hcopy
         end.
  rewrite upd_same in Hcopy.
  destruct (upd kd (Regular "") t ks) as [[| c] |] eqn:Hsrc; try discriminate.
  injection Hcopy as <-. exists c. cbn [files stored logged].
  change (OS.resolve _ src) with ks. change (OS.resolve _ dest) with kd.
  unfold upd in Hsrc |- *. rewrite key_eqb_refl.
  destruct (key_eqb kd ks) eqn:Hsame.
  - injection Hsrc as <-. repeat split.
    intros Hne. unfold key_eqb in Hsame.
    destruct (list_eq_dec string_dec kd ks); [congruence | discriminate].
  - repeat split; [assumption |]. intros _.
    eapply mkdirFrom_regular; [exact Hfrom | exact Hsrc].
Qed.

(** X6.  A reference the classifier takes for a literal local file comes
    back as it is from a successful [processFileRef], and its place in the
    output tree then holds what the source holds. *)
Lemma literal_reference_is_copied (E : Collaborators) (j : Jsonnetizer)
    (root path out : string) (w w' : world) :
  isLocalFile E (Filepath.Join [root; path]) = true ->
  isJsonnetFile (Filepath.Join [root; path]) && negb (Filepath.IsAbs path) = false ->
  processFileRef E j root path w = (inr out, w') ->
  out = path /\
  exists c,
    files w' (OS.resolve w' (Filepath.Join [root; path])) = Some (Regular c) /\
    files w' (OS.resolve w' (QualifyOutput j root path)) = Some (Regular c).
Proof.
  intros Hlocal Hliteral H. unfold processFileRef in H. cbv zeta in H.
  rewrite Hlocal, Hliteral in H. cbn [negb] in H.
  apply bind_inr in H. destruct H as ([] & w1 & Hcopy & H).
  injection H as <- <-. split; [reflexivity |].
  destruct (copyFile_ok _ _ _ _ Hcopy) as (c & Hsrc & Hdst & _). eauto.
Qed.

(** The classifier sees the joined path only: a relative reference that has
    no scheme of its own can show one once "." is joined away, and is then
    passed through like a remote one. *)
Example scheme_shows_after_join :
  NetURL.Parse "./http:/x.jsonnet" = Some {| Scheme := "" |} /\
  Filepath.Join ["."; "./http:/x.jsonnet"] = "http:/x.jsonnet" /\
  isLocalFile instance (Filepath.Join ["."; "./http:/x.jsonnet"]) = false /\
  processFileRef instance {| Base := "."; Output := "/out" |} "." "./http:/x.jsonnet"
    (flatWorld [])
  = (inr "./http:/x.jsonnet", flatWorld []).
Proof. repeat split; reflexivity. Qed.

(** * Further properties *)

(** ** Splitting and joining elements *)

Lemma split_nonempty (s : string) : Filepath.split s <> [].
Proof.
  destruct s as [| c s]; cbn; [discriminate |].
  destruct (Ascii.eqb c Filepath.slash); [discriminate |].
  destruct (Filepath.split s); discriminate.
Qed.

Lemma split_slash (a b : string) :
  Filepath.split (a ++ String "/" b) = Filepath.split a ++ Filepath.split b.
Proof.
  induction a as [| c a IH]; [reflexivity |].
  cbn [String.append Filepath.split]. rewrite IH.
  destruct (Ascii.eqb c Filepath.slash); [reflexivity |].
  pose proof (split_nonempty a) as Hne.
  destruct (Filepath.split a) as [| h t]; [congruence | reflexivity].
Qed.

Lemma split_join (a b : string) :
  Filepath.split (a ++ "/" ++ b) = Filepath.split a ++ Filepath.split b.
Proof. apply split_slash. Qed.

(** No element of a path contains a separator. *)
Lemma split_elements (s : string) :
  Forall (fun e => Filepath.split e = [e]) (Filepath.split s).
Proof.
  induction s as [| c s IH]; cbn [Filepath.split].
  - constructor; [reflexivity | constructor].
  - destruct (Ascii.eqb c Filepath.slash) eqn:Hc.
    + constructor; [reflexivity | assumption].
    + pose proof (split_nonempty s) as Hne.
      destruct (Filepath.split s) as [| h t]; [congruence |].
      inversion IH as [| ? ? Hh Ht]; subst.
      constructor; [| assumption].
      cbn [Filepath.split]. now rewrite Hc, Hh.
Qed.

Lemma split_concat (l : list string) :
  l <> [] ->
  Forall (fun e => Filepath.split e = [e]) l ->
  Filepath.split (String.concat "/" l) = l.
Proof.
  induction l as [| x l IH]; intros Hne Hall; [congruence |].
  inversion Hall as [| ? ? Hx Hl]; subst.
  destruct l as [| y l]; [exact Hx |].
  change (String.concat "/" (x :: y :: l))
    with (x ++ "/" ++ String.concat "/" (y :: l))%string.
  rewrite split_join, Hx, IH; [reflexivity | discriminate | assumption].
Qed.

Lemma cleanStep_elements (P : string -> Prop) (rooted : bool) (stk : list string)
    (c : string) :
  Forall P stk -> P c -> Forall P (Filepath.cleanStep rooted stk c).
Proof.
  intros Hstk Hc. unfold Filepath.cleanStep.
  destruct (c =? "")%string; [assumption |].
  destruct (c =? ".")%string; [assumption |].
  destruct (c =? "..")%string; [| now constructor].
  destruct stk as [| top stk'].
  - destruct rooted; [constructor | now constructor].
  - destruct (top =? "..")%string; [now constructor | now inversion Hstk].
Qed.

Lemma clean_elements (P : string -> Prop) (rooted : bool) (l : list string) :
  forall stk, Forall P stk -> Forall P l ->
              Forall P (fold_left (Filepath.cleanStep rooted) l stk).
Proof.
  induction l as [| c l IH]; intros stk Hstk Hl; cbn [fold_left]; [assumption |].
  inversion Hl; subst. apply IH; [now apply cleanStep_elements | assumption].
Qed.

(** Whatever the scan holds is solid; in a rooted path it is plain. *)
Lemma cleanStep_solid (rooted : bool) (stk : list string) (c : string) :
  Forall (fun e => solid e = true) stk ->
  Forall (fun e => solid e = true) (Filepath.cleanStep rooted stk c).
Proof.
  intros Hstk. unfold Filepath.cleanStep.
  destruct (c =? "")%string eqn:H0; [assumption |].
  destruct (c =? ".")%string eqn:H1; [assumption |].
  assert (Hc : solid c = true) by (unfold solid; now rewrite H0, H1).
  destruct (c =? "..")%string; [| now constructor].
  destruct stk as [| top stk'].
  - destruct rooted; [constructor | now constructor].
  - destruct (top =? "..")%string; [now constructor | now inversion Hstk].
Qed.

Lemma clean_solid (rooted : bool) (l : list string) :
  forall stk, Forall (fun e => solid e = true) stk ->
              Forall (fun e => solid e = true) (fold_left (Filepath.cleanStep rooted) l stk).
Proof.
  induction l as [| c l IH]; intros stk Hstk; cbn [fold_left]; [assumption |].
  apply IH. now apply cleanStep_solid.
Qed.

Lemma cleanStep_plain (stk : list string) (c : string) :
  Forall (fun e => plain e = true) stk ->
  Forall (fun e => plain e = true) (Filepath.cleanStep true stk c).
Proof.
  intros Hstk. unfold Filepath.cleanStep.
  destruct (c =? "")%string eqn:H0; [assumption |].
  destruct (c =? ".")%string eqn:H1; [assumption |].
  destruct (c =? "..")%string eqn:H2.
  - destruct stk as [| top stk']; [constructor |].
    inversion Hstk as [| ? ? Htop Hrest]; subst.
    unfold plain in Htop. apply andb_true_iff in Htop. destruct Htop as [_ Htop].
    apply negb_true_iff in Htop. now rewrite Htop.
  - constructor; [| assumption]. unfold plain, solid. now rewrite H0, H1, H2.
Qed.

Lemma clean_plain (l : list string) :
  forall stk, Forall (fun e => plain e = true) stk ->
              Forall (fun e => plain e = true) (fold_left (Filepath.cleanStep true) l stk).
Proof.
  induction l as [| c l IH]; intros stk Hstk; cbn [fold_left]; [assumption |].
  apply IH. now apply cleanStep_plain.
Qed.

Lemma cleanStep_push (rooted : bool) (stk : list string) (c : string) :
  plain c = true -> Filepath.cleanStep rooted stk c = c :: stk.
Proof.
  unfold plain, solid, Filepath.cleanStep. intros H.
  repeat (apply andb_true_iff in H; destruct H as [H ?]).
  repeat match goal with
         | Hn : negb _ = true |- _ => apply negb_true_iff in Hn; rewrite Hn
         end.
  reflexivity.
Qed.

(** Scanning plain elements keeps them all. *)
Lemma clean_push (rooted : bool) (l : list string) :
  Forall (fun e => plain e = true) l ->
  forall stk, fold_left (Filepath.cleanStep rooted) l stk = rev l ++ stk.
Proof.
  induction 1 as [| c l Hc _ IH]; intros stk; cbn [fold_left rev]; [reflexivity |].
  now rewrite cleanStep_push, IH, <- app_assoc.
Qed.

(** ** Cleaning a cleaned path *)

Lemma cleanStep_skip (rooted : bool) (stk : list string) (c : string) :
  solid c = false -> Filepath.cleanStep rooted stk c = stk.
Proof.
  unfold solid, Filepath.cleanStep. intros H.
  destruct (c =? "")%string; [reflexivity |].
  destruct (c =? ".")%string; [reflexivity | discriminate].
Qed.

Lemma cleanStep_dotdot (rooted : bool) (stk : list string) :
  Filepath.cleanStep rooted stk ".."
  = match stk with
    | top :: stk' => if (top =? "..")%string then ".." :: stk else stk'
    | [] => if rooted then [] else [".."]
    end.
Proof. reflexivity. Qed.

Lemma clean_snoc (rooted : bool) (l : list string) (c : string) (stk : list string) :
  fold_left (Filepath.cleanStep rooted) (l ++ [c]) stk
  = Filepath.cleanStep rooted (fold_left (Filepath.cleanStep rooted) l stk) c.
Proof. now rewrite fold_left_app. Qed.

Lemma clean_under_step (kept stk : list string) (c : string) :
  Forall (fun e => solid e = true) kept ->
  Filepath.cleanStep true (fold_left (Filepath.cleanStep true) (rev kept) stk) c
  = fold_left (Filepath.cleanStep true) (rev (Filepath.cleanStep false kept c)) stk.
Proof.
  intros Hkept.
  destruct (solid c) eqn:Hsolid; [| now rewrite !cleanStep_skip].
  destruct (c =? "..")%string eqn:Hdots.
  - apply String.eqb_eq in Hdots. subst c.
    rewrite (cleanStep_dotdot false kept).
    destruct kept as [| top kept']; [cbn [rev]; now rewrite clean_snoc |].
    destruct (top =? "..")%string eqn:Htop; [cbn [rev]; now rewrite !clean_snoc |].
    inversion Hkept as [| ? ? Htopsolid _]; subst.
    cbn [rev]. rewrite clean_snoc.
    rewrite (cleanStep_push true _ top) by (unfold plain; now rewrite Htopsolid, Htop).
    rewrite cleanStep_dotdot. now rewrite Htop.
  - rewrite (cleanStep_push false kept c) by (unfold plain; now rewrite Hsolid, Hdots).
    cbn [rev]. now rewrite clean_snoc.
Qed.

(** Below a directory, the elements a relative scan keeps stand for the
    elements it was given. *)
Lemma clean_under (l : list string) :
  forall kept stk,
    Forall (fun e => solid e = true) kept ->
    fold_left (Filepath.cleanStep true) l (fold_left (Filepath.cleanStep true) (rev kept) stk)
    = fold_left (Filepath.cleanStep true)
        (rev (fold_left (Filepath.cleanStep false) l kept)) stk.
Proof.
  induction l as [| c l IH]; intros kept stk Hkept; cbn [fold_left]; [reflexivity |].
  rewrite <- IH by now apply cleanStep_solid.
  now rewrite clean_under_step.
Qed.

Lemma concat_solid (e : string) (l : list string) :
  solid e = true -> (String.concat "/" (e :: l) =? "")%string = false.
Proof.
  unfold solid. intros H. apply andb_true_iff in H. destruct H as [H _].
  apply negb_true_iff, String.eqb_neq in H. apply String.eqb_neq.
  destruct e as [| c e]; [congruence |].
  destruct l; cbn; discriminate.
Qed.

Lemma IsAbs_concat (e : string) (l : list string) :
  solid e = true -> Filepath.split e = [e] ->
  Filepath.IsAbs (String.concat "/" (e :: l)) = false.
Proof.
  unfold solid. intros H Hsplit. apply andb_true_iff in H. destruct H as [H _].
  apply negb_true_iff, String.eqb_neq in H.
  destruct e as [| c e]; [congruence |].
  assert (Hc : Ascii.eqb c Filepath.slash = false).
  { destruct (Ascii.eqb c Filepath.slash) eqn:Hc; [| reflexivity].
    cbn [Filepath.split] in Hsplit. rewrite Hc in Hsplit.
    injection Hsplit as Hbad _. discriminate. }
  unfold Filepath.IsAbs, Strings.HasPrefix.
  destruct l; cbn [String.concat String.append String.prefix];
    (destruct (ascii_dec "/" c) as [<- |]; [discriminate | reflexivity]).
Qed.

Lemma prefix_empty (s : string) : String.prefix "" s = true.
Proof. now destruct s. Qed.

Lemma IsAbs_append (a b : string) :
  a <> EmptyString -> Filepath.IsAbs (a ++ b) = Filepath.IsAbs a.
Proof.
  destruct a as [| c a]; [congruence |]. intros _.
  unfold Filepath.IsAbs, Strings.HasPrefix. cbn [String.append String.prefix].
  destruct (ascii_dec "/" c); [now rewrite !prefix_empty | reflexivity].
Qed.

Lemma IsAbs_slash (s : string) : Filepath.IsAbs ("/" ++ s) = true.
Proof.
  unfold Filepath.IsAbs, Strings.HasPrefix. cbn [String.append String.prefix].
  destruct (ascii_dec "/" "/"); [apply prefix_empty | congruence].
Qed.

Lemma IsAbs_nonempty (a : string) : Filepath.IsAbs a = true -> a <> EmptyString.
Proof. now intros H ->. Qed.

(** The elements of a rooted path after [Clean] are those [Clean] kept. *)
Lemma split_Clean_rooted (s : string) :
  Filepath.IsAbs s = true ->
  Filepath.IsAbs (Filepath.Clean s) = true /\
  Filepath.cleanElems true (Filepath.split (Filepath.Clean s))
  = Filepath.cleanElems true (Filepath.split s).
Proof.
  intros Habs. unfold Filepath.Clean. rewrite Habs. split; [apply IsAbs_slash |].
  assert (Hplain : Forall (fun e => plain e = true)
                     (Filepath.cleanElems true (Filepath.split s))).
  { apply Forall_rev, clean_plain. constructor. }
  assert (Hsingle : Forall (fun e => Filepath.split e = [e])
                      (Filepath.cleanElems true (Filepath.split s))).
  { apply Forall_rev, clean_elements; [constructor | apply split_elements]. }
  destruct (Filepath.cleanElems true (Filepath.split s)) as [| e kept]; [reflexivity |].
  change (Filepath.split ("/" ++ String.concat "/" (e :: kept)))
    with ("" :: Filepath.split (String.concat "/" (e :: kept))).
  rewrite (split_concat (e :: kept)); [| discriminate | assumption].
  unfold Filepath.cleanElems.
  change (fold_left (Filepath.cleanStep true) ("" :: e :: kept) [])
    with (fold_left (Filepath.cleanStep true) (e :: kept) []).
  rewrite (clean_push true (e :: kept) Hplain). now rewrite app_nil_r, rev_involutive.
Qed.

(** The elements of a relative path after [Clean], below a directory, are
    those of the path itself below that directory. *)
Lemma split_Clean_under (dir s : string) :
  Filepath.IsAbs s = false ->
  Filepath.IsAbs (Filepath.Clean s) = false /\
  Filepath.cleanElems true (Filepath.split (dir ++ "/" ++ Filepath.Clean s))
  = Filepath.cleanElems true (Filepath.split (dir ++ "/" ++ s)).
Proof.
  intros Hrel. unfold Filepath.Clean. rewrite Hrel. unfold Filepath.cleanElems.
  assert (Hsolid : Forall (fun e => solid e = true)
                     (rev (fold_left (Filepath.cleanStep false) (Filepath.split s) []))).
  { apply Forall_rev, clean_solid. constructor. }
  assert (Hsingle : Forall (fun e => Filepath.split e = [e])
                      (rev (fold_left (Filepath.cleanStep false) (Filepath.split s) []))).
  { apply Forall_rev, clean_elements; [constructor | apply split_elements]. }
  assert (Hunder : forall stk,
             fold_left (Filepath.cleanStep true) (Filepath.split s) stk
             = fold_left (Filepath.cleanStep true)
                 (rev (fold_left (Filepath.cleanStep false) (Filepath.split s) [])) stk).
  { intros stk. exact (clean_under (Filepath.split s) [] stk (Forall_nil _)). }
  destruct (rev (fold_left (Filepath.cleanStep false) (Filepath.split s) [])) as [| e l].
  - cbn [String.concat]. change ("" =? "")%string with true. cbv iota.
    split; [reflexivity |].
    rewrite !split_join, !fold_left_app, Hunder. reflexivity.
  - rewrite concat_solid by now inversion Hsolid.
    split; [apply IsAbs_concat; [now inversion Hsolid | now inversion Hsingle] |].
    rewrite !split_join, !fold_left_app, Hunder.
    rewrite (split_concat (e :: l)); [reflexivity | discriminate | assumption].
Qed.

(** ** The output tree under the working directory *)

Lemma resolve_Clean_rooted (w : world) (s : string) :
  Filepath.IsAbs s = true ->
  OS.resolve w (Filepath.Clean s) = Filepath.cleanElems true (Filepath.split s).
Proof.
  intros Habs. destruct (split_Clean_rooted s Habs) as [Hclean Hsplit].
  unfold OS.resolve. now rewrite Hclean.
Qed.

Lemma resolve_Clean_relative (w : world) (s : string) :
  Filepath.IsAbs s = false ->
  OS.resolve w (Filepath.Clean s)
  = Filepath.cleanElems true (Filepath.split (cwd w ++ "/" ++ s)).
Proof.
  intros Hrel. destruct (split_Clean_under (cwd w) s Hrel) as [Hclean Hsplit].
  unfold OS.resolve. now rewrite Hclean.
Qed.

Lemma resolve_QualifyOutput_cwd (j : Jsonnetizer) (root path : string) (w : world) :
  Filepath.IsAbs (cwd w) = true ->
  Output j = cwd w ->
  root <> EmptyString ->
  Filepath.IsAbs root = false ->
  OS.resolve w (QualifyOutput j root path) = OS.resolve w (Filepath.Join [root; path]).
Proof.
  intros Hcwd Hout Hroot Hrel. unfold QualifyOutput. rewrite Hout.
  unfold Filepath.Join.
  apply String.eqb_neq in Hroot. rewrite Hroot.
  rewrite (proj2 (String.eqb_neq _ _) (IsAbs_nonempty _ Hcwd)).
  change (String.concat "/" [cwd w; root; path])
    with (cwd w ++ "/" ++ (root ++ "/" ++ path))%string.
  change (String.concat "/" [root; path]) with (root ++ "/" ++ path)%string.
  apply String.eqb_neq in Hroot.
  rewrite resolve_Clean_rooted
    by (rewrite IsAbs_append; [exact Hcwd | exact (IsAbs_nonempty _ Hcwd)]).
  rewrite resolve_Clean_relative by (rewrite IsAbs_append; assumption).
  reflexivity.
Qed.

(** X1.  When the output location is the working directory, which is what
    [main] takes when no [-output] is given, and the manifest directory is a
    relative path, [QualifyOutput] names the very file the reference names:
    the output tree is the input tree. *)
Theorem output_in_working_directory (j : Jsonnetizer) (root path : string) (w : world) :
  Filepath.IsAbs (cwd w) = true ->
  Output j = cwd w ->
  root <> EmptyString ->
  Filepath.IsAbs root = false ->
  OS.resolve w (QualifyOutput j root path) = OS.resolve w (Filepath.Join [root; path]).
Proof. exact (resolve_QualifyOutput_cwd j root path w). Qed.

Lemma output_in_working_directory_witness :
  OS.resolve appWorld (QualifyOutput {| Base := "app"; Output := "/work" |} "app" "base.yml")
  = OS.resolve appWorld (Filepath.Join ["app"; "base.yml"]).
Proof.
  apply (output_in_working_directory {| Base := "app"; Output := "/work" |}
           "app" "base.yml" appWorld).
  - reflexivity.
  - reflexivity.
  - discriminate.
  - reflexivity.
Defined.

Lemma Open_ok (name : string) (f : OS.File) (w w' : world) :
  OS.Open name w = (inr f, w') -> f = name /\ w' = logged (COpen name) w.
Proof.
  unfold OS.Open. cbv zeta. destruct (OS.lookup _ name); [| discriminate].
  now intros [= <- <-].
Qed.

Lemma Create_ok (name : string) (f : OS.File) (w w' : world) :
  OS.Create name w = (inr f, w') ->
  f = name /\ w' = stored (OS.resolve w name) (Regular "") (logged (CCreate name) w).
Proof.
  unfold OS.Create. cbv zeta. destruct (OS.creatable _ name); [| discriminate].
  now intros [= <- <-].
Qed.

Lemma Copy_ok (dst src : OS.File) (w w' : world) :
  OS.Copy dst src w = (inr tt, w') ->
  exists c held,
    files w (OS.resolve w src) = Some (Regular c) /\
    files w (OS.resolve w dst) = Some (Regular held) /\
    w' = stored (OS.resolve w dst) (Regular (held ++ c)) (logged (CCopy dst src) w).
Proof.
  unfold OS.Copy. cbv zeta.
  change (files (logged (CCopy dst src) w)) with (files w).
  change (OS.resolve (logged (CCopy dst src) w)) with (OS.resolve w).
  destruct (files w (OS.resolve w src)) as [[| c] |]; try discriminate.
  destruct (files w (OS.resolve w dst)) as [[| held] |]; try discriminate.
  intros [= <-]. now exists c, held.
Qed.

(** The calls of a successful [copyFile], and the worlds between them. *)
Lemma copyFile_steps (src dest : string) (w w' : world) :
  copyFile src dest w = (inr tt, w') ->
  exists w1 c held,
    OS.MkdirAll (Filepath.Dir dest) w = (inr tt, w1) /\
    upd (OS.resolve w dest) (Regular "") (files w1) (OS.resolve w src) = Some (Regular c) /\
    upd (OS.resolve w dest) (Regular "") (files w1) (OS.resolve w dest)
    = Some (Regular held) /\
    files w' = upd (OS.resolve w dest) (Regular (held ++ c))
                 (upd (OS.resolve w dest) (Regular "") (files w1)) /\
    cwd w' = cwd w /\
    trace w' = CCopy dest src :: CCreate dest :: COpen src
                 :: CMkdirAll (Filepath.Dir dest) :: trace w.
Proof.
  unfold copyFile. intros H.
  apply bind_inr in H. destruct H as ([] & w1 & Hmk & H).
  apply bind_inr in H. destruct H as (open & w2 & Hopen & H).
  apply bind_inr in H. destruct H as (create & w3 & Hcreate & Hcopy).
  destruct (MkdirAll_ok _ _ _ Hmk) as [Htrace Hcwd].
  apply Open_ok in Hopen. destruct Hopen as [-> ->].
  apply Create_ok in Hcreate. destruct Hcreate as [-> ->].
  apply Copy_ok in Hcopy. destruct Hcopy as (c & held & Hsrc & Hdst & ->).
  assert (Hres : forall name,
             OS.resolve (stored (OS.resolve (logged (COpen src) w1) dest) (Regular "")
                           (logged (CCreate dest) (logged (COpen src) w1))) name
             = OS.resolve w name).
  { intros name. apply resolve_cwd. exact Hcwd. }
  assert (Hres1 : forall name, OS.resolve (logged (COpen src) w1) name = OS.resolve w name).
  { intros name. apply resolve_cwd. exact Hcwd. }
  rewrite !Hres, !Hres1 in *. cbn [files stored logged] in Hsrc, Hdst.
  exists w1, c, held. cbn [files stored logged cwd trace].
  rewrite Htrace. repeat split; assumption.
Qed.

(** X2.  A successful [copyFile] made its four calls in order: [os.MkdirAll]
    of the destination's directory, [os.Open] of the source, [os.Create] of
    the destination, [io.Copy].  Afterwards the destination holds what the
    source holds, and the source holds what it held before, unless the two
    names denote one file. *)
Theorem copyFile_copies (src dest : string) (w w' : world) :
  copyFile src dest w = (inr tt, w') ->
  trace w' = CCopy dest src :: CCreate dest :: COpen src
               :: CMkdirAll (Filepath.Dir dest) :: trace w /\
  exists c,
    files w' (OS.resolve w' src) = Some (Regular c) /\
    files w' (OS.resolve w' dest) = Some (Regular c) /\
    (OS.resolve w src <> OS.resolve w dest -> files w (OS.resolve w src) = Some (Regular c)).
Proof.
  intros H. split.
  - destruct (copyFile_steps _ _ _ _ H) as (w1 & c & held & _ & _ & _ & _ & _ & Htrace).
    exact Htrace.
  - now apply copyFile_ok.
Qed.

Lemma copyFile_copies_witness :
  trace (snd (copyFile "app/base.yml" "/out/app/base.yml" appWorld))
  = [CCopy "/out/app/base.yml" "app/base.yml"; CCreate "/out/app/base.yml";
     COpen "app/base.yml"; CMkdirAll (Filepath.Dir "/out/app/base.yml")] /\
  exists c,
    files (snd (copyFile "app/base.yml" "/out/app/base.yml" appWorld))
      (OS.resolve (snd (copyFile "app/base.yml" "/out/app/base.yml" appWorld))
         "app/base.yml") = Some (Regular c) /\
    files (snd (copyFile "app/base.yml" "/out/app/base.yml" appWorld))
      (OS.resolve (snd (copyFile "app/base.yml" "/out/app/base.yml" appWorld))
         "/out/app/base.yml") = Some (Regular c) /\
    (OS.resolve appWorld "app/base.yml" <> OS.resolve appWorld "/out/app/base.yml" ->
     files appWorld (OS.resolve appWorld "app/base.yml") = Some (Regular c)).
Proof.
  apply (copyFile_copies "app/base.yml" "/out/app/base.yml" appWorld
           (snd (copyFile "app/base.yml" "/out/app/base.yml" appWorld))).
  reflexivity.
Defined.

Lemma copyFile_truncates (src dest : string) (w w' : world) :
  OS.resolve w src = OS.resolve w dest ->
  copyFile src dest w = (inr tt, w') ->
  files w' (OS.resolve w' src) = Some (Regular "").
Proof.
  intros Hsame H.
  destruct (copyFile_steps _ _ _ _ H) as (w1 & c & held & _ & Hsrc & Hdst & Hfiles & Hcwd & _).
  rewrite (resolve_cwd w w' src Hcwd), Hfiles, Hsame.
  rewrite Hsame, upd_same in Hsrc. rewrite upd_same in Hdst.
  injection Hsrc as <-. injection Hdst as <-. apply upd_same.
Qed.

(** X3.  When source and destination denote one file, a successful
    [copyFile] leaves that file empty: [os.Create] truncates it before
    [io.Copy] reads it. *)
Theorem copyFile_onto_itself (src dest : string) (w w' : world) :
  OS.resolve w src = OS.resolve w dest ->
  copyFile src dest w = (inr tt, w') ->
  files w' (OS.resolve w' src) = Some (Regular "").
Proof. exact (copyFile_truncates src dest w w'). Qed.

Lemma copyFile_onto_itself_witness :
  files (snd (copyFile "app/base.yml" "/work/app/base.yml" appWorld))
    (OS.resolve (snd (copyFile "app/base.yml" "/work/app/base.yml" appWorld)) "app/base.yml")
  = Some (Regular "").
Proof.
  apply (copyFile_onto_itself "app/base.yml" "/work/app/base.yml" appWorld
           (snd (copyFile "app/base.yml" "/work/app/base.yml" appWorld)));
    reflexivity.
Defined.

(** X4.  With the output location at the working directory and a relative
    manifest directory, every reference that is processed as a literal file
    and succeeds leaves its own source file empty. *)
Theorem default_output_empties_literal_files (E : Collaborators) (j : Jsonnetizer)
    (root path out : string) (w w' : world) :
  Filepath.IsAbs (cwd w) = true ->
  Output j = cwd w ->
  root <> EmptyString ->
  Filepath.IsAbs root = false ->
  isLocalFile E (Filepath.Join [root; path]) = true ->
  isJsonnetFile (Filepath.Join [root; path]) && negb (Filepath.IsAbs path) = false ->
  processFileRef E j root path w = (inr out, w') ->
  files w' (OS.resolve w' (Filepath.Join [root; path])) = Some (Regular "").
Proof.
  intros Hcwd Hout Hroot Hrel Hlocal Hliteral H.
  unfold processFileRef in H. cbv zeta in H. rewrite Hlocal, Hliteral in H. cbn [negb] in H.
  apply bind_inr in H. destruct H as ([] & w1 & Hcopy & H). injection H as _ <-.
  eapply copyFile_truncates; [| exact Hcopy].
  symmetry. now apply resolve_QualifyOutput_cwd.
Qed.

Lemma default_output_empties_literal_files_witness :
  files (snd (processFileRef instance {| Base := "app"; Output := "/work" |}
                "app" "base.yml" appWorld))
    (OS.resolve (snd (processFileRef instance {| Base := "app"; Output := "/work" |}
                        "app" "base.yml" appWorld))
       (Filepath.Join ["app"; "base.yml"]))
  = Some (Regular "").
Proof.
  apply (default_output_empties_literal_files instance
           {| Base := "app"; Output := "/work" |} "app" "base.yml" "base.yml" appWorld
           (snd (processFileRef instance {| Base := "app"; Output := "/work" |}
                   "app" "base.yml" appWorld)));
    try reflexivity.
  discriminate.
Defined.

Lemma isJsonnetFile_spec_witness :
  isJsonnetFile "a/b.yml" = true /\
  (Strings.HasSuffix "x.jsonnet" ".jsonnet" = true \/ String.length "x.jsonnet" = 7).
Proof.
  split.
  - apply (proj2 (isJsonnetFile_spec "a/b.yml")). right. reflexivity.
  - apply (proj1 (isJsonnetFile_spec "x.jsonnet")). reflexivity.
Defined.

Lemma literal_reference_is_copied_witness :
  "base.yml" = "base.yml" /\
  exists c,
    files (snd (processFileRef instance appJ "app" "base.yml" appWorld))
      (OS.resolve (snd (processFileRef instance appJ "app" "base.yml" appWorld))
         (Filepath.Join ["app"; "base.yml"])) = Some (Regular c) /\
    files (snd (processFileRef instance appJ "app" "base.yml" appWorld))
      (OS.resolve (snd (processFileRef instance appJ "app" "base.yml" appWorld))
         (QualifyOutput appJ "app" "base.yml")) = Some (Regular c).
Proof.
  apply (literal_reference_is_copied instance appJ "app" "base.yml" "base.yml" appWorld
           (snd (processFileRef instance appJ "app" "base.yml" appWorld)));
    reflexivity.
Defined.

(** ** Lists of references *)

(** X7.  Generators and transformers are never descended into: what
    [processTypes] does with a plugin list does not depend on
    [processKustomization] at all, so it is the same at every recursion
    depth. *)
Theorem plugins_never_recurse (E : Collaborators)
    (recur recur' : Jsonnetizer -> string -> string -> M unit) (j : Jsonnetizer)
    (root : string) (paths : list string) (w : world) :
  processTypesWith E recur j root PluginType paths w
  = processTypesWith E recur' j root PluginType paths w.
Proof.
  unfold processTypesWith. generalize (@nil string) as acc. revert w.
  induction paths as [| path rest IH]; intros w acc; cbn [processLoop]; [reflexivity |].
  destruct (path =? "")%string; [reflexivity |].
  unfold bind. destruct (processPlugin E j root path w) as [[e | u] w1]; [reflexivity |].
  apply IH.
Qed.

Lemma processLoop_acc (E : Collaborators)
    (recur : Jsonnetizer -> string -> string -> M unit) (j : Jsonnetizer) (root : string)
    (kustType : KustomizeType) (paths : list string) :
  forall acc w,
    processLoop E recur j root kustType paths acc w
    = match processLoop E recur j root kustType paths [] w with
      | (inr outs, w') => (inr (acc ++ outs), w')
      | (inl e, w') => (inl e, w')
      end.
Proof.
  induction paths as [| path rest IH]; intros acc w; cbn [processLoop].
  - unfold ret. now rewrite app_nil_r.
  - destruct (path =? "")%string; [reflexivity |].
    unfold bind.
    destruct (match kustType with
              | ResourceType => processResourceWith E recur j root path
              | PluginType => processPlugin E j root path
              end w) as [[e | u] w1]; [reflexivity |].
    rewrite (IH (acc ++ [u])), (IH ([] ++ [u])).
    destruct (processLoop E recur j root kustType rest [] w1) as [[e | outs] w2];
      [reflexivity |].
    now rewrite <- app_assoc.
Qed.

Lemma processLoop_append (E : Collaborators)
    (recur : Jsonnetizer -> string -> string -> M unit) (j : Jsonnetizer) (root : string)
    (kustType : KustomizeType) (a b : list string) :
  forall acc w,
    processLoop E recur j root kustType (a ++ b) acc w
    = match processLoop E recur j root kustType a acc w with
      | (inr outs, w1) => processLoop E recur j root kustType b outs w1
      | (inl e, w1) => (inl e, w1)
      end.
Proof.
  induction a as [| path rest IH]; intros acc w; cbn [app processLoop]; [reflexivity |].
  destruct (path =? "")%string; [reflexivity |].
  unfold bind.
  destruct (match kustType with
            | ResourceType => processResourceWith E recur j root path
            | PluginType => processPlugin E j root path
            end w) as [[e | u] w1]; [reflexivity |].
  apply IH.
Qed.

(** X8.  [processTypes] works through a list in order and stops at the first
    failure: on [a ++ b] it does what it does on [a], then, if that succeeded,
    what it does on [b] in the world [a] left, and returns the two outputs one
    after the other. *)
Theorem processTypes_append (E : Collaborators) (fuel : nat) (j : Jsonnetizer)
    (root : string) (kustType : KustomizeType) (a b : list string) (w : world) :
  processTypes E fuel j root kustType (a ++ b) w
  = match processTypes E fuel j root kustType a w with
    | (inr outs, w1) =>
        match processTypes E fuel j root kustType b w1 with
        | (inr outs', w2) => (inr (outs ++ outs'), w2)
        | (inl e, w2) => (inl e, w2)
        end
    | (inl e, w1) => (inl e, w1)
    end.
Proof.
  unfold processTypes, processTypesWith. rewrite processLoop_append.
  destruct (processLoop E (processKustomization E fuel) j root kustType a [] w)
    as [[e | outs] w1]; [reflexivity |].
  apply processLoop_acc.
Qed.

(** X9.  A plugin list whose entries are all non-empty and all classified as
    non-local comes back as it is, and no call is made for it. *)
Theorem nonlocal_plugins_pass_through (E : Collaborators) (fuel : nat) (j : Jsonnetizer)
    (root : string) (paths : list string) (w : world) :
  Forall (fun path => path <> EmptyString /\
                      isLocalFile E (Filepath.Join [root; path]) = false) paths ->
  processTypes E fuel j root PluginType paths w = (inr paths, w).
Proof.
  intros Hall. unfold processTypes, processTypesWith.
  rewrite processLoop_acc.
  assert (H : forall acc,
             processLoop E (processKustomization E fuel) j root PluginType paths acc w
             = (inr (acc ++ paths), w)).
  { induction Hall as [| path rest [Hne Hremote] _ IH]; intros acc; cbn [processLoop].
    - unfold ret. now rewrite app_nil_r.
    - apply String.eqb_neq in Hne. rewrite Hne.
      unfold processPlugin.
      rewrite (bind_ok _ _ _ _ _ (processFileRef_nonlocal E j root path w Hremote)).
      rewrite IH. now rewrite <- app_assoc. }
  now rewrite (H []).
Qed.

Lemma nonlocal_plugins_pass_through_witness :
  processTypes instance 5 {| Base := "."; Output := "/out" |} "." PluginType
    ["https://example.com/plugin.yml"; "git::https://example.com/repo"] (flatWorld [])
  = (inr ["https://example.com/plugin.yml"; "git::https://example.com/repo"], flatWorld []).
Proof.
  apply (nonlocal_plugins_pass_through instance 5 {| Base := "."; Output := "/out" |} "."
           ["https://example.com/plugin.yml"; "git::https://example.com/repo"]
           (flatWorld [])).
  repeat constructor; discriminate.
Defined.

(** ** The whole run *)

Lemma steady_Getwd : steady OS.Getwd.
Proof. intros w. apply evolves_refl. Qed.

Lemma steady_main (E : Collaborators) (fuel : nat) (output : string) (args : list string) :
  steady (main E fuel output args).
Proof.
  unfold main.
  apply steady_bind; [destruct (output =? "")%string; [apply steady_Getwd | apply steady_ret] |].
  intros out. destruct args as [| kustRoot rest]; [apply steady_fail |].
  apply steady_bind; [apply steady_Stat | intros si].
  apply steady_bind.
  - destruct (negb (OS.IsDir si)); [| apply steady_ret].
    destruct (_ || _); [apply steady_fail | apply steady_ret].
  - intros root. apply steady_bind; [apply steady_processKustomization | intros _].
    apply steady_runKustomize.
Qed.

(** X10.  A run never removes or replaces what exists: whatever [main] does,
    and whether it succeeds or fails, every directory is still a directory
    afterwards, every regular file is still a regular file, and the working
    directory is the same. *)
Theorem run_keeps_files (E : Collaborators) (fuel : nat) (output : string)
    (args : list string) (w : world) :
  cwd (snd (main E fuel output args w)) = cwd w /\
  (forall k, files w k = Some Directory ->
             files (snd (main E fuel output args w)) k = Some Directory) /\
  (forall k c, files w k = Some (Regular c) ->
               exists c', files (snd (main E fuel output args w)) k = Some (Regular c')).
Proof.
  pose proof (steady_main E fuel output args w) as H.
  split; [exact (ev_cwd _ _ H) |]. split; [exact (ev_dir _ _ H) | exact (ev_reg _ _ H)].
Qed.

Lemma run_keeps_files_witness :
  files (snd (main instance 5 "/out" ["app"] appWorld)) ["work"; "app"; "overlay"]
  = Some Directory /\
  exists c',
    files (snd (main instance 5 "/out" ["app"] appWorld)) ["work"; "app"; "base.yml"]
    = Some (Regular c').
Proof.
  split.
  - apply (proj1 (proj2 (run_keeps_files instance 5 "/out" ["app"] appWorld))). reflexivity.
  - apply (proj2 (proj2 (run_keeps_files instance 5 "/out" ["app"] appWorld))
             ["work"; "app"; "base.yml"] "kind: Deployment").
    reflexivity.
Defined.

(** X11.  For an argument that names a directory, [main] resolves that
    directory, as given and with an empty relative path, into the output
    location (the [-output] value, or the working directory when it is
    empty); it runs [kustomize build] on the directory's place in the output
    tree exactly when the resolution succeeded, and otherwise ends with the
    resolution's error. *)
Theorem build_follows_resolution (E : Collaborators) (fuel : nat) (output kustRoot : string)
    (rest : list string) (w : world) :
  OS.lookup w kustRoot = Some Directory ->
  let j := {| Base := kustRoot;
              Output := if (output =? "")%string then cwd w else output |} in
  main E fuel output (kustRoot :: rest) w
  = match processKustomization E fuel j kustRoot "" (logged (CStat kustRoot) w) with
    | (inr _, w1) =>
        let argv := ["kustomize"; "build"; "--enable_alpha_plugins";
                     QualifyOutput j kustRoot ""] in
        if kustomize E (logged (CExec argv) w1) (QualifyOutput j kustRoot "")
        then (inr tt, logged (CExec argv) w1)
        else (inl (ExitError argv), logged (CExec argv) w1)
    | (inl e, w1) => (inl e, w1)
    end.
Proof.
  intros Hdir j. unfold main.
  assert (Hout : forall k : string -> M unit,
             bind (if (output =? "")%string then OS.Getwd else ret output) k w
             = k (if (output =? "")%string then cwd w else output) w).
  { intros k. unfold bind. now destruct (output =? "")%string. }
  rewrite Hout.
  assert (Hstat : OS.Stat kustRoot w
                  = (inr (OS.info kustRoot Directory), logged (CStat kustRoot) w)).
  { unfold OS.Stat. cbv zeta. now rewrite lookup_logged, Hdir. }
  rewrite (bind_ok _ _ _ _ _ Hstat). cbn [OS.info OS.IsDir negb].
  unfold bind at 1. unfold ret at 1. fold j.
  unfold bind.
  destruct (processKustomization E fuel j kustRoot "" (logged (CStat kustRoot) w))
    as [[e | []] w1]; reflexivity.
Qed.

Lemma build_follows_resolution_witness :
  let j := {| Base := "app";
              Output := if ("/out" =? "")%string then cwd appWorld else "/out" |} in
  main instance 5 "/out" ["app"] appWorld
  = match processKustomization instance 5 j "app" "" (logged (CStat "app") appWorld) with
    | (inr _, w1) =>
        let argv := ["kustomize"; "build"; "--enable_alpha_plugins";
                     QualifyOutput j "app" ""] in
        if kustomize instance (logged (CExec argv) w1) (QualifyOutput j "app" "")
        then (inr tt, logged (CExec argv) w1)
        else (inl (ExitError argv), logged (CExec argv) w1)
    | (inl e, w1) => (inl e, w1)
    end.
Proof.
  apply (build_follows_resolution instance 5 "/out" "app" [] appWorld).
  reflexivity.
Defined.

(** X12.  What [main] refuses before resolving anything: no positional
    argument ("Not enough args"); an argument that does not exist (the error
    of [os.Stat]); and every argument that is not a directory, whatever its
    name, because one of the two name tests of the guard always holds.  In
    each case nothing is written. *)
Theorem main_refusals (E : Collaborators) (fuel : nat) (output : string) (w : world) :
  main E fuel output [] w = (inl (Fatal "Not enough args"), w) /\
  (forall kustRoot rest,
      OS.lookup w kustRoot = None ->
      main E fuel output (kustRoot :: rest) w
      = (inl (PathError "stat" kustRoot), logged (CStat kustRoot) w)) /\
  (forall kustRoot rest c,
      OS.lookup w kustRoot = Some (Regular c) ->
      main E fuel output (kustRoot :: rest) w
      = (inl (Fatal "Argument must be a kustomization root or yaml file"),
         logged (CStat kustRoot) w)).
Proof.
  assert (Hout : forall k : string -> M unit,
             bind (if (output =? "")%string then OS.Getwd else ret output) k w
             = k (if (output =? "")%string then cwd w else output) w).
  { intros k. unfold bind. now destruct (output =? "")%string. }
  unfold main. split; [| split].
  - now rewrite Hout.
  - intros kustRoot rest Hnone. rewrite Hout.
    apply bind_err. unfold OS.Stat. cbv zeta. now rewrite lookup_logged, Hnone.
  - intros kustRoot rest c Hfile. rewrite Hout.
    unfold bind at 1. unfold OS.Stat. rewrite lookup_logged, Hfile.
    cbn [OS.info OS.IsDir OS.Name negb].
    destruct (OS.basename kustRoot =? "kustomization.yml")%string eqn:Hyml;
      [| reflexivity].
    apply String.eqb_eq in Hyml. rewrite Hyml. reflexivity.
Qed.

Lemma main_refusals_witness :
  main instance 5 "/out" ["app/nothing"] appWorld
  = (inl (PathError "stat" "app/nothing"), logged (CStat "app/nothing") appWorld) /\
  main instance 5 "/out" ["app/kustomization.yml"] appWorld
  = (inl (Fatal "Argument must be a kustomization root or yaml file"),
     logged (CStat "app/kustomization.yml") appWorld).
Proof.
  split.
  - apply (proj1 (proj2 (main_refusals instance 5 "/out" appWorld)) "app/nothing" []).
    reflexivity.
  - apply (proj2 (proj2 (main_refusals instance 5 "/out" appWorld))
             "app/kustomization.yml" []
             (String.concat LineYaml.LF
                ["namePrefix: dev-"; "resources:"; "- base.yml"; "- overlay";
                 "- config.jsonnet"])).
    reflexivity.
Defined.

(** ** Single references *)

(** X13.  A generator or transformer that names a directory and is processed
    as a literal file never resolves: [copyFile] cannot read it. *)
Theorem plugin_directory_fails (E : Collaborators) (j : Jsonnetizer) (root path : string)
    (w : world) :
  OS.lookup w (Filepath.Join [root; path]) = Some Directory ->
  isLocalFile E (Filepath.Join [root; path]) = true ->
  isJsonnetFile (Filepath.Join [root; path]) && negb (Filepath.IsAbs path) = false ->
  exists e, fst (processPlugin E j root path w) = inl e.
Proof.
  intros Hdir Hlocal Hliteral.
  destruct (processPlugin E j root path w) as [[e | out] w'] eqn:Hrun; [cbn; eauto |].
  exfalso. unfold processPlugin in Hrun.
  pose proof (evolves_run _ _ _ _ (steady_processFileRef E j root path) Hrun) as Hev.
  unfold processFileRef in Hrun. cbv zeta in Hrun.
  rewrite Hlocal, Hliteral in Hrun. cbn [negb] in Hrun.
  apply bind_inr in Hrun. destruct Hrun as ([] & w1 & Hcopy & Hret).
  injection Hret as _ ->.
  destruct (copyFile_ok _ _ _ _ Hcopy) as (c & Hsrc & _).
  apply lookup_directory in Hdir. destruct Hdir as [_ Hdir].
  apply (ev_dir _ _ Hev) in Hdir.
  rewrite (resolve_cwd w w' _ (ev_cwd _ _ Hev)) in Hsrc. congruence.
Qed.

Lemma plugin_directory_fails_witness :
  exists e, fst (processPlugin instance appJ "app" "overlay" appWorld) = inl e.
Proof.
  apply (plugin_directory_fails instance appJ "app" "overlay" appWorld); reflexivity.
Defined.

(** X14.  A successful [processFileRef] changes the reference only by
    rendering: it returns the reference as it was, having run no renderer, or
    it returns the reference with ".yml" appended, the reference is a relative
    path, and its last two calls were [os.MkdirAll] and the renderer. *)
Theorem reference_changes_only_by_rendering (E : Collaborators) (j : Jsonnetizer)
    (root path out : string) (w w' : world) :
  processFileRef E j root path w = (inr out, w') ->
  (out = path /\ filter isRender (trace w') = filter isRender (trace w)) \/
  (out = (path ++ ".yml")%string /\ Filepath.IsAbs path = false /\
   trace w' = CExec ["jsonnet"; "-o"; (QualifyOutput j root path ++ ".yml")%string;
                     Filepath.Join [root; path]]
                :: CMkdirAll (Filepath.Dir (QualifyOutput j root path ++ ".yml"))
                :: trace w).
Proof.
  unfold processFileRef. cbv zeta. destruct (negb _).
  - intros [= <- <-]. now left.
  - destruct (isJsonnetFile _) eqn:Hjs; cbn [andb].
    + destruct (Filepath.IsAbs path) eqn:Habs; cbn [negb]; intros H.
      * apply bind_inr in H. destruct H as ([] & w1 & Hcopy & H). injection H as <- <-.
        left. split; [reflexivity |].
        destruct (copyFile_steps _ _ _ _ Hcopy) as (_ & _ & _ & _ & _ & _ & _ & _ & ->).
        reflexivity.
      * apply bind_inr in H. destruct H as ([] & w1 & Hmk & H).
        apply bind_inr in H. destruct H as ([] & w2 & Hrun & H). injection H as <- <-.
        right. apply MkdirAll_ok in Hmk. destruct Hmk as [Hmk _].
        apply runJsonnet_ok in Hrun. destruct Hrun as [Hrun _].
        repeat split. now rewrite Hrun, Hmk.
    + intros H.
      apply bind_inr in H. destruct H as ([] & w1 & Hcopy & H). injection H as <- <-.
      left. split; [reflexivity |].
      destruct (copyFile_steps _ _ _ _ Hcopy) as (_ & _ & _ & _ & _ & _ & _ & _ & ->).
      reflexivity.
Qed.

Lemma reference_changes_only_by_rendering_witness :
  ("config.jsonnet.yml" = "config.jsonnet" /\
   filter isRender (trace (snd (processFileRef instance appJ "app" "config.jsonnet" appWorld)))
   = filter isRender (trace appWorld)) \/
  ("config.jsonnet.yml" = ("config.jsonnet" ++ ".yml")%string /\
   Filepath.IsAbs "config.jsonnet" = false /\
   trace (snd (processFileRef instance appJ "app" "config.jsonnet" appWorld))
   = CExec ["jsonnet"; "-o";
            (QualifyOutput appJ "app" "config.jsonnet" ++ ".yml")%string;
            Filepath.Join ["app"; "config.jsonnet"]]
       :: CMkdirAll (Filepath.Dir (QualifyOutput appJ "app" "config.jsonnet" ++ ".yml"))
       :: trace appWorld).
Proof.
  apply (reference_changes_only_by_rendering instance appJ "app" "config.jsonnet"
           "config.jsonnet.yml" appWorld
           (snd (processFileRef instance appJ "app" "config.jsonnet" appWorld))).
  reflexivity.
Defined.

(** ** Manifests *)

Lemma loaded_files (root : string) (w : world) :
  files (loaded root w) = files w /\ cwd (loaded root w) = cwd w.
Proof.
  unfold loaded, findKustFile, bind, attempt, OS.Stat, OS.ReadFile. cbv zeta.
  repeat match goal with
         | |- context [match OS.lookup ?w ?n with _ => _ end] =>
             destruct (OS.lookup w n) as [[| ?] |]; cbn
         end; split; reflexivity.
Qed.

(** X15.  A resolution whose manifest cannot be loaded, because none is
    found, or the one found is not a regular file, or cannot be read or
    parsed, fails having only looked: the file system is as it was. *)
Theorem unloadable_manifest_fails (E : Collaborators) (fuel : nat) (j : Jsonnetizer)
    (oldRoot resource : string) (w : world) :
  manifestAt E (Filepath.Join [oldRoot; resource]) w = None ->
  exists e,
    processKustomization E (S fuel) j oldRoot resource w
    = (inl e, loaded (Filepath.Join [oldRoot; resource]) w) /\
    files (loaded (Filepath.Join [oldRoot; resource]) w) = files w.
Proof.
  intros Hnone. destruct (loaded_files (Filepath.Join [oldRoot; resource]) w) as [Hfiles _].
  cbn [processKustomization]. unfold processKustomizationWith. cbv zeta.
  unfold manifestAt in Hnone. unfold loaded in *.
  destruct (findKustFile (Filepath.Join [oldRoot; resource]) w) as [[e | kust] w1] eqn:Hfind.
  - exists e. split; [apply bind_err; exact Hfind | exact Hfiles].
  - rewrite (bind_ok _ _ _ _ _ Hfind).
    destruct (OS.ReadFile kust w1) as [[e | bytes] w2] eqn:Hread.
    + exists e. split; [apply bind_err; exact Hread | exact Hfiles].
    + rewrite (bind_ok _ _ _ _ _ Hread).
      destruct (yaml_Unmarshal E bytes); [discriminate |].
      exists YamlError. split; [reflexivity | exact Hfiles].
Qed.

Lemma unloadable_manifest_fails_witness :
  exists e,
    processKustomization instance 1 appJ "app/overlay" "missing" appWorld
    = (inl e, loaded (Filepath.Join ["app/overlay"; "missing"]) appWorld) /\
    files (loaded (Filepath.Join ["app/overlay"; "missing"]) appWorld) = files appWorld.
Proof.
  apply (unloadable_manifest_fails instance 0 appJ "app/overlay" "missing" appWorld).
  reflexivity.
Defined.

Lemma processFileRef_mkdirs (E : Collaborators) (j : Jsonnetizer) (root path out : string)
    (w w' : world) :
  processFileRef E j root path w = (inr out, w') ->
  mkdirs (trace w') = mkdirs (trace w) -> out = path.
Proof.
  unfold processFileRef. cbv zeta. destruct (negb _); [now intros [= <- _] |].
  destruct (_ && _); intros H Hmk.
  - exfalso.
    apply bind_inr in H. destruct H as ([] & w1 & Hdir & H).
    apply bind_inr in H. destruct H as ([] & w2 & Hrun & H). injection H as _ <-.
    apply MkdirAll_ok in Hdir. destruct Hdir as [Hdir _].
    apply runJsonnet_ok in Hrun. destruct Hrun as [Hrun _].
    rewrite Hrun in Hmk. cbn [mkdirs] in Hmk. rewrite Hdir in Hmk. cbn [mkdirs] in Hmk. lia.
  - apply bind_inr in H. destruct H as ([] & w1 & _ & H). now injection H as <- _.
Qed.

Lemma entryResolved_mkdirs (E : Collaborators)
    (recur : Jsonnetizer -> string -> string -> M unit) (j : Jsonnetizer) (root : string)
    (kustType : KustomizeType) (w w' : world) (path out : string) :
  (forall j root path, steady (recur j root path)) ->
  entryResolved E recur j root kustType w w' path out ->
  mkdirs (trace w') = mkdirs (trace w) ->
  out = path.
Proof.
  intros Hrecur (wa & wb & Hwa & Hwb & H) Hmk.
  pose proof (evolves_run _ _ _ _ (steady_entry E recur Hrecur j root kustType path) H) as Hab.
  pose proof (ev_mkdirs _ _ Hwa). pose proof (ev_mkdirs _ _ Hwb).
  pose proof (ev_mkdirs _ _ Hab).
  destruct kustType.
  - unfold processResourceWith in H.
    apply bind_inr in H. destruct H as (si & w1 & Hstat & H).
    pose proof (evolves_run _ _ _ _ (steady_Lstat _) Hstat) as Hlstat.
    pose proof (ev_mkdirs _ _ Hlstat).
    destruct (OS.IsDir si).
    + apply bind_inr in H. destruct H as (_ & w2 & _ & H). now injection H as <- _.
    + apply bind_inr in H. destruct H as (u & w2 & Hu & H). injection H as <- <-.
      eapply processFileRef_mkdirs; [exact Hu |].
      pose proof (evolves_run _ _ _ _ (steady_processFileRef E j root path) Hu) as Hfile.
      pose proof (ev_mkdirs _ _ Hfile). lia.
  - eapply processFileRef_mkdirs; [exact H | lia].
Qed.

Lemma Forall2_same {A} (l l' : list A) : Forall2 (fun a b => b = a) l l' -> l' = l.
Proof. induction 1; [reflexivity | congruence]. Qed.

Lemma processTypes_mkdirs (E : Collaborators) (fuel : nat) (j : Jsonnetizer) (root : string)
    (kustType : KustomizeType) (paths out : list string) (w w' : world) :
  processTypes E fuel j root kustType paths w = (inr out, w') ->
  mkdirs (trace w') = mkdirs (trace w) ->
  out = paths.
Proof.
  intros H Hmk. apply processTypes_entries in H. apply Forall2_same.
  eapply Forall2_impl; [| exact H].
  intros p o Hentry. eapply entryResolved_mkdirs; [| exact Hentry | exact Hmk].
  apply steady_processKustomization.
Qed.

(** X16.  A successful resolution writes a manifest that differs from the one
    it read in the three reference lists at most, and when [os.MkdirAll] was
    never called during it, that is, when nothing was copied or rendered, it
    writes the serialization of the manifest as it was read. *)
Theorem manifest_changes_only_by_replication (E : Collaborators) (fuel : nat)
    (j : Jsonnetizer) (oldRoot resource : string) (w w' : world) :
  processKustomization E fuel j oldRoot resource w = (inr tt, w') ->
  exists kust k k' bytes,
    manifestAt E (Filepath.Join [oldRoot; resource]) w = Some (kust, k) /\
    yaml_Marshal E k' = Some bytes /\
    files w' (OS.resolve w' (QualifyOutput j kust "")) = Some (Regular bytes) /\
    Others k' = Others k /\
    (mkdirs (trace w') = mkdirs (trace w) -> k' = k).
Proof.
  destruct fuel as [| fuel]; [discriminate |]. intros H.
  apply processKustomization_ok in H. cbv zeta in H.
  destruct H as (kust & k & rs & gs & ts & w3 & w4 & w5 & bytes
                 & Hk & Hrs & Hgs & Hts & Hm & _ & Hfile & Hev5).
  exists kust, k,
    {| Resources := rs; Generators := gs; Transformers := ts; Others := Others k |}, bytes.
  repeat (split; [assumption || reflexivity |]).
  intros Hmk.
  pose proof (ev_mkdirs _ _ (evolves_loaded (Filepath.Join [oldRoot; resource]) w)).
  pose proof (ev_mkdirs _ _ (evolves_run _ _ _ _ (steady_processTypes _ _ _ _ _ _) Hrs)).
  pose proof (ev_mkdirs _ _ (evolves_run _ _ _ _ (steady_processTypes _ _ _ _ _ _) Hgs)).
  pose proof (ev_mkdirs _ _ (evolves_run _ _ _ _ (steady_processTypes _ _ _ _ _ _) Hts)).
  pose proof (ev_mkdirs _ _ Hev5).
  rewrite (processTypes_mkdirs _ _ _ _ _ _ _ _ _ Hrs) by lia.
  rewrite (processTypes_mkdirs _ _ _ _ _ _ _ _ _ Hgs) by lia.
  rewrite (processTypes_mkdirs _ _ _ _ _ _ _ _ _ Hts) by lia.
  now destruct k.
Qed.

Lemma manifest_changes_only_by_replication_witness :
  exists kust k k' bytes,
    manifestAt instance (Filepath.Join ["app"; ""]) appWorld = Some (kust, k) /\
    yaml_Marshal instance k' = Some bytes /\
    files appResolved (OS.resolve appResolved (QualifyOutput appJ kust ""))
    = Some (Regular bytes) /\
    Others k' = Others k /\
    (mkdirs (trace appResolved) = mkdirs (trace appWorld) -> k' = k).
Proof.
  apply (manifest_changes_only_by_replication instance 5 appJ "app" "" appWorld appResolved).
  reflexivity.
Defined.

(** X17.  With an absolute output location, the place [QualifyOutput] gives a
    reference does not depend on the working directory: it is found by
    walking the manifest directory and then the reference down from the
    output location, an absolute manifest directory included.  The
    repository's test of [QualifyOutput] is one case. *)
Theorem QualifyOutput_below_output (j : Jsonnetizer) (root path : string) (w : world) :
  Filepath.IsAbs (Output j) = true ->
  (Filepath.IsAbs (QualifyOutput j root path) = true /\
   OS.resolve w (QualifyOutput j root path)
   = Filepath.cleanElems true (Filepath.split (Output j ++ "/" ++ root ++ "/" ++ path))) /\
  QualifyOutput {| Base := "/abc/123"; Output := "/output/here" |} "/abc/123/xyz" "my.resource"
  = "/output/here/abc/123/xyz/my.resource".
Proof.
  intros Habs. split; [| reflexivity].
  unfold QualifyOutput, Filepath.Join.
  rewrite (proj2 (String.eqb_neq _ _) (IsAbs_nonempty _ Habs)).
  change (String.concat "/" [Output j; root; path])
    with (Output j ++ "/" ++ root ++ "/" ++ path)%string.
  assert (H : Filepath.IsAbs (Output j ++ "/" ++ root ++ "/" ++ path) = true).
  { rewrite IsAbs_append; [exact Habs | exact (IsAbs_nonempty _ Habs)]. }
  split; [exact (proj1 (split_Clean_rooted _ H)) | now apply resolve_Clean_rooted].
Qed.

Lemma QualifyOutput_below_output_witness :
  (Filepath.IsAbs (QualifyOutput appJ "/abs/app" "../x.yml") = true /\
   OS.resolve appWorld (QualifyOutput appJ "/abs/app" "../x.yml")
   = Filepath.cleanElems true
       (Filepath.split (Output appJ ++ "/" ++ "/abs/app" ++ "/" ++ "../x.yml"))) /\
  QualifyOutput {| Base := "/abc/123"; Output := "/output/here" |} "/abc/123/xyz" "my.resource"
  = "/output/here/abc/123/xyz/my.resource".
Proof.
  apply (QualifyOutput_below_output appJ "/abs/app" "../x.yml" appWorld). reflexivity.
Defined.

(** X18.  [processResource] looks at the file system before it classifies: a
    resource whose joined path does not exist fails with the error of
    [os.Lstat], whatever the reference is, a URL included; one that is a
    regular file is handled as [processFileRef] handles it. *)
Theorem resource_is_stat_first (E : Collaborators) (fuel : nat) (j : Jsonnetizer)
    (root path : string) (w : world) :
  (OS.lookup w (Filepath.Join [root; path]) = None ->
   processResource E fuel j root path w
   = (inl (PathError "lstat" (Filepath.Join [root; path])),
      logged (CLstat (Filepath.Join [root; path])) w)) /\
  (forall c,
      OS.lookup w (Filepath.Join [root; path]) = Some (Regular c) ->
      processResource E fuel j root path w
      = processFileRef E j root path (logged (CLstat (Filepath.Join [root; path])) w)).
Proof.
  unfold processResource, processResourceWith. split.
  - intros Hnone. apply bind_err. unfold OS.Lstat. cbv zeta.
    now rewrite lookup_logged, Hnone.
  - intros c Hfile.
    assert (Hstat : OS.Lstat (Filepath.Join [root; path]) w
                    = (inr (OS.info (Filepath.Join [root; path]) (Regular c)),
                       logged (CLstat (Filepath.Join [root; path])) w)).
    { unfold OS.Lstat. cbv zeta. now rewrite lookup_logged, Hfile. }
    rewrite (bind_ok _ _ _ _ _ Hstat). cbn [OS.info OS.IsDir].
    unfold bind, ret.
    now destruct (processFileRef E j root path _) as [[e | u] w1].
Qed.

Lemma resource_is_stat_first_witness :
  processResource instance 5 {| Base := "."; Output := "/out" |} "."
    "https://example.com/base.yml" (flatWorld [])
  = (inl (PathError "lstat" (Filepath.Join ["."; "https://example.com/base.yml"])),
     logged (CLstat (Filepath.Join ["."; "https://example.com/base.yml"])) (flatWorld [])) /\
  processResource instance 5 appJ "app" "base.yml" appWorld
  = processFileRef instance appJ "app" "base.yml"
      (logged (CLstat (Filepath.Join ["app"; "base.yml"])) appWorld).
Proof.
  split.
  - apply (proj1 (resource_is_stat_first instance 5 {| Base := "."; Output := "/out" |} "."
                    "https://example.com/base.yml" (flatWorld []))).
    reflexivity.
  - apply (proj2 (resource_is_stat_first instance 5 appJ "app" "base.yml" appWorld)
             "kind: Deployment").
    reflexivity.
Defined.

(** * What is stored where *)

Lemma writesTo_cwd (w w' : world) (k : key) (c : call) :
  cwd w' = cwd w -> writesTo w' k c = writesTo w k c.
Proof.
  intros Hcwd. destruct c as [| | | | n | n ? | | n ? | argv]; cbn [writesTo];
    try reflexivity; try now rewrite (resolve_cwd w w' n Hcwd).
  destruct argv as [| prog [| ? [| outputFile ?]]]; try reflexivity.
  now rewrite (resolve_cwd w w' outputFile Hcwd).
Qed.

Lemma existsb_writesTo_cwd (w w' : world) (k : key) (l : list call) :
  cwd w' = cwd w -> existsb (writesTo w' k) l = existsb (writesTo w k) l.
Proof.
  intros Hcwd. induction l as [| c l IH]; cbn [existsb]; [reflexivity |].
  now rewrite IH, (writesTo_cwd w w' k c Hcwd).
Qed.

Lemma quiet_refl (k : key) (w : world) : quiet k w w.
Proof. constructor; [reflexivity |]. exists []. auto. Qed.

Lemma quiet_trans (k : key) (w1 w2 w3 : world) :
  quiet k w1 w2 -> quiet k w2 w3 -> quiet k w1 w3.
Proof.
  intros [c1 (new1 & t1 & f1)] [c2 (new2 & t2 & f2)]. constructor; [congruence |].
  exists (new2 ++ new1). split; [now rewrite t2, t1, app_assoc |].
  rewrite existsb_app, orb_false_iff. intros [H2 H1] c Hc.
  apply f2; [now rewrite (existsb_writesTo_cwd w1 w2 k new2 c1) | now apply f1].
Qed.

Lemma quiet_logged (k : key) (c : call) (w : world) : quiet k w (logged c w).
Proof. constructor; [reflexivity |]. exists [c]. auto. Qed.

(** One call that stores at [key]. *)
Lemma quiet_stored (k key : key) (n : node) (c : call) (w : world) :
  writesTo w k c = key_eqb key k ->
  quiet k w (stored key n (logged c w)).
Proof.
  intros Hc. constructor; [reflexivity |]. exists [c]. split; [reflexivity |].
  cbn [existsb]. rewrite orb_false_r, Hc. intros Hne c' Hfile.
  cbn [files stored logged]. unfold upd. now rewrite Hne.
Qed.

Lemma calm_ret {A} (a : A) : calm (ret a).
Proof. intros k w. apply quiet_refl. Qed.

Lemma calm_fail {A} (e : error) : calm (@fail A e).
Proof. intros k w. apply quiet_refl. Qed.

Lemma calm_bind {A B} (m : M A) (f : A -> M B) :
  calm m -> (forall a, calm (f a)) -> calm (bind m f).
Proof.
  intros Hm Hf k w. unfold bind. specialize (Hm k w).
  destruct (m w) as [[e | a] w1]; cbn in *; [assumption |].
  eapply quiet_trans; [eassumption | apply Hf].
Qed.

Lemma calm_attempt {A} (m : M A) : calm m -> calm (attempt m).
Proof. intros Hm k w. unfold attempt. specialize (Hm k w). now destruct (m w). Qed.

Lemma calm_Stat (name : string) : calm (OS.Stat name).
Proof.
  intros k w. unfold OS.Stat. cbv zeta. destruct (OS.lookup _ name); apply quiet_logged.
Qed.

Lemma calm_Lstat (name : string) : calm (OS.Lstat name).
Proof.
  intros k w. unfold OS.Lstat. cbv zeta. destruct (OS.lookup _ name); apply quiet_logged.
Qed.

Lemma calm_Open (name : string) : calm (OS.Open name).
Proof.
  intros k w. unfold OS.Open. cbv zeta. destruct (OS.lookup _ name); apply quiet_logged.
Qed.

Lemma calm_ReadFile (name : string) : calm (OS.ReadFile name).
Proof.
  intros k w. unfold OS.ReadFile. cbv zeta.
  destruct (OS.lookup _ name) as [[| c] |]; apply quiet_logged.
Qed.

Lemma calm_MkdirAll (name : string) : calm (OS.MkdirAll name).
Proof.
  intros k w. unfold OS.MkdirAll. cbv zeta.
  destruct (name =? "")%string; [apply quiet_logged |].
  destruct (OS.mkdirFrom _ _ _) as [t |] eqn:Hmk; [| apply quiet_logged].
  cbn in Hmk. constructor; [reflexivity |]. exists [CMkdirAll name].
  split; [reflexivity |]. intros _ c Hc. cbn. eapply mkdirFrom_keeps; eassumption.
Qed.

Lemma calm_Create (name : string) : calm (OS.Create name).
Proof.
  intros k w. unfold OS.Create. cbv zeta.
  destruct (OS.creatable _ name); [| apply quiet_logged].
  now apply quiet_stored.
Qed.

Lemma calm_Write (f : OS.File) (bytes : string) : calm (OS.Write f bytes).
Proof.
  intros k w. unfold OS.Write. cbv zeta.
  destruct (files _ _) as [[| held] |]; try apply quiet_logged.
  now apply quiet_stored.
Qed.

Lemma calm_Copy (dst src : OS.File) : calm (OS.Copy dst src).
Proof.
  intros k w. unfold OS.Copy. cbv zeta.
  destruct (files _ (OS.resolve _ src)) as [[| c] |]; try apply quiet_logged.
  destruct (files _ (OS.resolve _ dst)) as [[| held] |]; try apply quiet_logged.
  now apply quiet_stored.
Qed.

Lemma calm_runJsonnet (E : Collaborators) (outputFile qPath : string) :
  calm (runJsonnet E outputFile qPath).
Proof.
  intros k w. unfold runJsonnet. cbv zeta.
  destruct (jsonnet E _ qPath) as [bytes |]; [| apply quiet_logged].
  destruct (OS.creatable _ outputFile); [| apply quiet_logged].
  now apply quiet_stored.
Qed.

Create HintDb calm.
#[local] Hint Resolve calm_ret calm_fail calm_attempt calm_Stat calm_Lstat calm_Open
  calm_ReadFile calm_MkdirAll calm_Create calm_Write calm_Copy calm_runJsonnet : calm.

Ltac calm_step :=
  repeat first
    [ apply calm_bind; [| intros ? ]
    | progress auto with calm
    | match goal with
      | |- calm (if ?b then _ else _) => destruct b
      | |- calm (match ?x with _ => _ end) => destruct x
      | |- calm (let (_, _) := ?x in _) => destruct x
      end ].

Lemma calm_copyFile (src dest : string) : calm (copyFile src dest).
Proof. unfold copyFile. calm_step. Qed.

#[local] Hint Resolve calm_copyFile : calm.

Lemma calm_processFileRef (E : Collaborators) (j : Jsonnetizer) (root path : string) :
  calm (processFileRef E j root path).
Proof. unfold processFileRef. cbv zeta. calm_step. Qed.

Lemma calm_findKustFile (root : string) : calm (findKustFile root).
Proof. unfold findKustFile. cbv zeta. calm_step. Qed.

#[local] Hint Resolve calm_processFileRef calm_findKustFile : calm.

Section CalmRecursion.

Variable E : Collaborators.
Variable recur : Jsonnetizer -> string -> string -> M unit.
Hypothesis calm_recur : forall j root path, calm (recur j root path).

Lemma calm_processResourceWith (j : Jsonnetizer) (root path : string) :
  calm (processResourceWith E recur j root path).
Proof. unfold processResourceWith. calm_step. Qed.

Lemma calm_entry (j : Jsonnetizer) (root : string) (kustType : KustomizeType)
    (path : string) :
  calm match kustType with
       | ResourceType => processResourceWith E recur j root path
       | PluginType => processPlugin E j root path
       end.
Proof.
  destruct kustType; [apply calm_processResourceWith | apply calm_processFileRef].
Qed.

Lemma calm_processLoop (j : Jsonnetizer) (root : string) (kustType : KustomizeType)
    (paths : list string) :
  forall finalResources, calm (processLoop E recur j root kustType paths finalResources).
Proof.
  induction paths as [| path rest IH]; intros acc; cbn [processLoop].
  - apply calm_ret.
  - destruct (path =? "")%string; [apply calm_fail |].
    apply calm_bind; [apply calm_entry | intros u; apply IH].
Qed.

Lemma calm_processKustomizationWith (j : Jsonnetizer) (oldRoot resource : string) :
  calm (processKustomizationWith E recur j oldRoot resource).
Proof.
  unfold processKustomizationWith, processTypesWith. cbv zeta.
  apply calm_bind; [apply calm_findKustFile | intros kust].
  apply calm_bind; [apply calm_ReadFile | intros bytes].
  destruct (yaml_Unmarshal E bytes) as [k |]; [| apply calm_fail].
  repeat (apply calm_bind; [apply calm_processLoop | intros ?]).
  apply calm_bind; [apply calm_Create | intros f].
  destruct (yaml_Marshal E _); [apply calm_Write | apply calm_fail].
Qed.

End CalmRecursion.

Lemma calm_processKustomization (E : Collaborators) (fuel : nat) :
  forall j oldRoot resource, calm (processKustomization E fuel j oldRoot resource).
Proof.
  induction fuel as [| fuel IH]; intros j oldRoot resource; cbn [processKustomization].
  - apply calm_fail.
  - now apply calm_processKustomizationWith.
Qed.

Lemma calm_processTypes (E : Collaborators) (fuel : nat) (j : Jsonnetizer) (root : string)
    (kustType : KustomizeType) (paths : list string) :
  calm (processTypes E fuel j root kustType paths).
Proof. apply calm_processLoop, calm_processKustomization. Qed.

Lemma quiet_run {A} (m : M A) (k : key) (w w' : world) (r : error + A) :
  calm m -> m w = (r, w') -> quiet k w w'.
Proof. intros Hm H. specialize (Hm k w). now rewrite H in Hm. Qed.

Lemma entryKept_widen (E : Collaborators)
    (recur : Jsonnetizer -> string -> string -> M unit) (j : Jsonnetizer) (root : string)
    (kustType : KustomizeType) (w0 w w' : world) (path out : string) :
  evolves w0 w ->
  entryKept E recur j root kustType w w' path out ->
  entryKept E recur j root kustType w0 w' path out.
Proof.
  intros H0 (wa & wb & Ha & Hb & Hq & H). exists wa, wb.
  split; [eapply evolves_trans; eassumption |]. auto.
Qed.

Lemma processLoop_entries_kept (E : Collaborators)
    (recur : Jsonnetizer -> string -> string -> M unit) (j : Jsonnetizer) (root : string)
    (kustType : KustomizeType) :
  (forall j root path, steady (recur j root path)) ->
  (forall j root path, calm (recur j root path)) ->
  forall (paths acc out : list string) (w w' : world),
    processLoop E recur j root kustType paths acc w = (inr out, w') ->
    exists outs,
      out = acc ++ outs /\
      Forall2 (entryKept E recur j root kustType w w') paths outs.
Proof.
  intros Hsteady Hcalm. induction paths as [| path rest IH]; intros acc out w w' H;
    cbn [processLoop] in H.
  - injection H as <- <-. exists []. split; [now rewrite app_nil_r | constructor].
  - destruct (path =? "")%string; [discriminate |].
    apply bind_inr in H. destruct H as (u & w1 & Hu & H).
    pose proof (evolves_run _ _ _ _ (steady_entry E recur Hsteady j root kustType path) Hu)
      as Hw1.
    pose proof (evolves_run _ _ _ _
                  (steady_processLoop E recur Hsteady j root kustType rest _) H) as Hw'.
    assert (Hq : forall k, quiet k w1 w').
    { intros k. exact (quiet_run _ k _ _ _
                         (calm_processLoop E recur Hcalm j root kustType rest _) H). }
    apply IH in H. destruct H as (outs & -> & Hall).
    exists (u :: outs). split; [now rewrite <- app_assoc |].
    constructor.
    + exists w, w1. split; [apply evolves_refl |]. auto.
    + eapply Forall2_impl; [| exact Hall].
      intros p o. now apply entryKept_widen.
Qed.

(** What a successful resolution did, with the worlds it went through. *)
Lemma processKustomization_rewrites (E : Collaborators) (fuel : nat) (j : Jsonnetizer)
    (oldRoot resource : string) (w w' : world) :
  processKustomization E (S fuel) j oldRoot resource w = (inr tt, w') ->
  let root := Filepath.Join [oldRoot; resource] in
  exists kust k k' w5 bytes,
    manifestAt E root w = Some (kust, k) /\
    rewritesTo E fuel j root w k k' w5 /\
    yaml_Marshal E k' = Some bytes /\
    files w' (OS.resolve w' (QualifyOutput j kust "")) = Some (Regular bytes) /\
    evolves w5 w' /\
    (forall loc, quiet loc w5 w').
Proof.
  intros H root. pose proof H as Hok.
  apply processKustomization_ok in Hok. cbv zeta in Hok. fold root in Hok.
  destruct Hok as (kust & k & rs & gs & ts & w3 & w4 & w5 & bytes
                   & Hk & Hrs & Hgs & Hts & Hm & _ & Hfile & Hev).
  exists kust, k,
    {| Resources := rs; Generators := gs; Transformers := ts; Others := Others k |},
    w5, bytes.
  split; [exact Hk |].
  split; [exists w3, w4; cbn [Resources Generators Transformers Others]; auto |].
  split; [exact Hm |]. split; [exact Hfile |]. split; [exact Hev |].
  intros loc. rewrite (processKustomization_loaded _ _ _ _ _ _ _ _ Hk) in H.
  cbv zeta in H. fold root in H.
  rewrite (bind_ok _ _ _ _ _ Hrs), (bind_ok _ _ _ _ _ Hgs), (bind_ok _ _ _ _ _ Hts) in H.
  eapply quiet_run; [| exact H].
  apply calm_bind; [apply calm_Create | intros f].
  destruct (yaml_Marshal E _); [apply calm_Write | apply calm_fail].
Qed.

(** C8, as the program behaves.  Let a successful resolution load a manifest
    whose [i]-th resource names a directory that exists when the resolution
    starts.  Then the resolution called itself on that subdirectory, later in
    the run and with success; the manifest it wrote for its own directory is
    the one it read with the three lists replaced by the outputs of their
    loops, and its [i]-th resource is the same reference; the nested call
    loaded the subdirectory's manifest, and when it returned, the path that
    manifest file has in the output tree held the serialization of that
    manifest with its three lists replaced by the outputs of its loops.  When
    the resolution ends a regular file is still at that path, and it holds
    that rewritten manifest unless one of the calls made after the nested
    call returned stored at that same path. *)
Theorem directory_resource_is_recursed (E : Collaborators) (fuel : nat) (j : Jsonnetizer)
    (oldRoot resource : string) (w w' : world) (kust : string) (k : Kustomization)
    (i : nat) (path : string) :
  let root := Filepath.Join [oldRoot; resource] in
  let sub := Filepath.Join [root; path] in
  processKustomization E fuel j oldRoot resource w = (inr tt, w') ->
  manifestAt E root w = Some (kust, k) ->
  nth_error (Resources k) i = Some path ->
  OS.lookup w sub = Some Directory ->
  exists fuel' wa wb w5 k' bytes nested nk nk' nw5 nbytes later,
    fuel = S (S fuel') /\
    evolves w wa /\
    processKustomization E (S fuel') j root path wa = (inr tt, wb) /\
    rewritesTo E (S fuel') j root w k k' w5 /\
    yaml_Marshal E k' = Some bytes /\
    files w' (OS.resolve w' (QualifyOutput j kust "")) = Some (Regular bytes) /\
    nth_error (Resources k') i = Some path /\
    manifestAt E sub wa = Some (nested, nk) /\
    (nested = Filepath.Join [sub; "kustomization.yml"] \/
     nested = Filepath.Join [sub; "kustomization.yaml"]) /\
    rewritesTo E fuel' j sub wa nk nk' nw5 /\
    yaml_Marshal E nk' = Some nbytes /\
    files wb (OS.resolve wb (QualifyOutput j nested "")) = Some (Regular nbytes) /\
    trace w' = later ++ trace wb /\
    (exists c, files w' (OS.resolve w' (QualifyOutput j nested "")) = Some (Regular c)) /\
    (existsb (writesTo w (OS.resolve w (QualifyOutput j nested ""))) later = false ->
     files w' (OS.resolve w' (QualifyOutput j nested "")) = Some (Regular nbytes)).
Proof.
  intros root sub Hrun Hk Hi Hdir.
  destruct fuel as [| fuel]; [discriminate |].
  apply processKustomization_rewrites in Hrun. cbv zeta in Hrun. fold root in Hrun.
  destruct Hrun as (kust0 & k0 & k' & w5 & bytes & Hk0 & Hrw & Hm & Hfile & Hev5 & Hq5).
  rewrite Hk in Hk0. injection Hk0 as <- <-.
  pose proof Hrw as (w3 & w4 & Hrs & Hgs & Hts & Hothers).
  assert (Hev3 : evolves w3 w').
  { eapply evolves_trans; [eapply evolves_run; [apply steady_processTypes | exact Hgs] |].
    eapply evolves_trans; [eapply evolves_run; [apply steady_processTypes | exact Hts] |].
    exact Hev5. }
  assert (Hq3 : forall loc, quiet loc w3 w').
  { intros loc.
    eapply quiet_trans; [eapply quiet_run; [apply calm_processTypes | exact Hgs] |].
    eapply quiet_trans; [eapply quiet_run; [apply calm_processTypes | exact Hts] |].
    apply Hq5. }
  pose proof Hrs as Hentries.
  apply processLoop_entries_kept in Hentries;
    [| apply steady_processKustomization | apply calm_processKustomization].
  destruct Hentries as (outs & Houts & Hall). cbn [app] in Houts. subst outs.
  destruct (Forall2_nth_error _ _ _ Hall i path Hi)
    as (o & Ho & wa & wb & Hwa & Hwb & Hqb & Hentry).
  assert (Hwa' : evolves w wa).
  { eapply evolves_trans; [apply evolves_loaded | exact Hwa]. }
  rewrite processResourceWith_directory in Hentry
    by (eapply lookup_directory_later; eassumption).
  fold sub in Hentry.
  apply bind_inr in Hentry. destruct Hentry as ([] & wb' & Hnested & Hret).
  injection Hret as <- <-.
  assert (Hwb' : evolves wb' w') by (eapply evolves_trans; eassumption).
  assert (Hqb' : forall loc, quiet loc wb' w').
  { intros loc. eapply quiet_trans; [apply Hqb | apply Hq3]. }
  destruct fuel as [| fuel]; [discriminate |].
  pose proof Hnested as Hinner.
  apply processKustomization_rewrites in Hinner. cbv zeta in Hinner. fold sub in Hinner.
  destruct Hinner as (nested & nk & nk' & nw5 & nbytes & Hnk & Hnrw & Hnm & Hnfile & _ & _).
  assert (Hwa2 : evolves w (logged (CLstat sub) wa)).
  { eapply evolves_trans; [exact Hwa' | apply evolves_logged]. }
  assert (Hwwb : evolves w wb').
  { eapply evolves_trans; [exact Hwa2 |].
    eapply evolves_run; [apply steady_processKustomization | exact Hnested]. }
  set (out := QualifyOutput j nested "") in *.
  assert (Hres : OS.resolve wb' out = OS.resolve w out)
    by (apply resolve_cwd; exact (ev_cwd _ _ Hwwb)).
  assert (Hres' : OS.resolve w' out = OS.resolve wb' out)
    by (apply resolve_cwd; exact (ev_cwd _ _ Hwb')).
  destruct (Hqb' (OS.resolve w out)) as [_ (later & Hlater & Hkept)].
  exists fuel, (logged (CLstat sub) wa), wb', w5, k', bytes, nested, nk, nk', nw5, nbytes,
    later.
  fold out.
  split; [reflexivity |].
  split; [exact Hwa2 |].
  split; [exact Hnested |].
  split; [exact Hrw |].
  split; [exact Hm |].
  split; [exact Hfile |].
  split; [exact Ho |].
  split; [exact Hnk |].
  split.
  { destruct (manifestAt_inv _ _ _ _ _ Hnk) as (w1 & b & Hfind & _).
    eapply findKustFile_names; eassumption. }
  split; [exact Hnrw |].
  split; [exact Hnm |].
  split; [exact Hnfile |].
  split; [exact Hlater |].
  split.
  { destruct (ev_reg _ _ Hwb' _ _ Hnfile) as [c Hc].
    exists c. now rewrite Hres'. }
  intros Hnone. rewrite Hres', Hres. apply Hkept.
  - now rewrite (existsb_writesTo_cwd w wb' _ later (ev_cwd _ _ Hwwb)).
  - now rewrite <- Hres.
Qed.

Lemma directory_resource_is_recursed_witness :
  exists fuel' wa wb w5 k' bytes nested nk nk' nw5 nbytes later,
    5 = S (S fuel') /\
    evolves appWorld wa /\
    processKustomization instance (S fuel') appJ (Filepath.Join ["app"; ""]) "overlay" wa
    = (inr tt, wb) /\
    rewritesTo instance (S fuel') appJ (Filepath.Join ["app"; ""]) appWorld
      {| Resources := ["base.yml"; "overlay"; "config.jsonnet"]; Generators := [];
         Transformers := []; Others := ["namePrefix: dev-"] |} k' w5 /\
    yaml_Marshal instance k' = Some bytes /\
    files appResolved (OS.resolve appResolved (QualifyOutput appJ "app/kustomization.yml" ""))
    = Some (Regular bytes) /\
    nth_error (Resources k') 1 = Some "overlay" /\
    manifestAt instance (Filepath.Join [Filepath.Join ["app"; ""]; "overlay"]) wa
    = Some (nested, nk) /\
    (nested = Filepath.Join [Filepath.Join [Filepath.Join ["app"; ""]; "overlay"];
                             "kustomization.yml"] \/
     nested = Filepath.Join [Filepath.Join [Filepath.Join ["app"; ""]; "overlay"];
                             "kustomization.yaml"]) /\
    rewritesTo instance fuel' appJ (Filepath.Join [Filepath.Join ["app"; ""]; "overlay"])
      wa nk nk' nw5 /\
    yaml_Marshal instance nk' = Some nbytes /\
    files wb (OS.resolve wb (QualifyOutput appJ nested "")) = Some (Regular nbytes) /\
    trace appResolved = later ++ trace wb /\
    (exists c,
        files appResolved (OS.resolve appResolved (QualifyOutput appJ nested ""))
        = Some (Regular c)) /\
    (existsb (writesTo appWorld (OS.resolve appWorld (QualifyOutput appJ nested ""))) later
     = false ->
     files appResolved (OS.resolve appResolved (QualifyOutput appJ nested ""))
     = Some (Regular nbytes)).
Proof.
  apply (directory_resource_is_recursed instance 5 appJ "app" "" appWorld appResolved
           "app/kustomization.yml"
           {| Resources := ["base.yml"; "overlay"; "config.jsonnet"]; Generators := [];
              Transformers := []; Others := ["namePrefix: dev-"] |}
           1 "overlay");
    reflexivity.
Defined.

(** C8, as stated, fails: with resources "overlay" and then
    "overlay/kustomization.yaml", the resolution succeeds and the nested call
    writes the rewritten manifest of [overlay], listing "patch.jsonnet.yml";
    the second resource is then copied over it, and at the end the path holds
    the manifest as it is in the input tree, listing "patch.jsonnet". *)
Lemma nested_manifest_counterexample :
  OS.lookup shadowWorld "app/overlay" = Some Directory /\
  fst (main instance 5 "/out" ["app"] shadowWorld) = inr tt /\
  nth_error (trace (snd (main instance 5 "/out" ["app"] shadowWorld))) 8
  = Some (CWrite "/out/app/overlay/kustomization.yaml"
            (String.concat LineYaml.LF ["resources:"; "- patch.jsonnet.yml"; ""])) /\
  OS.lookup (snd (main instance 5 "/out" ["app"] shadowWorld))
    "/out/app/overlay/kustomization.yaml"
  = Some (manifest ["resources:"; "- patch.jsonnet"]) /\
  OS.lookup shadowWorld "app/overlay/kustomization.yaml"
  = Some (manifest ["resources:"; "- patch.jsonnet"]).
Proof. repeat split; reflexivity. Qed.

(** C5, at a failing input.  In the manifest directory "100%" the resource
    "config.jsonnet" is a local reference, relative, ends in ".jsonnet", and
    names an existing file.  The joined path "100%/config.jsonnet" does not
    parse as a locator (its escape is invalid), so [isLocalFile] answers false
    for it and the reference is left alone: the run succeeds, the rewritten
    manifest lists "config.jsonnet" as it was, and the renderer is never
    run. *)
Theorem template_in_unparsable_directory_is_not_rendered :
  let j := {| Base := "100%"; Output := "/out" |} in
  let r := main instance 5 "/out" ["100%"] percentWorld in
  NetURL.Parse "config.jsonnet" = Some {| Scheme := "" |} /\
  isLocalFile instance "config.jsonnet" = true /\
  Strings.HasSuffix "config.jsonnet" ".jsonnet" = true /\
  Filepath.IsAbs "config.jsonnet" = false /\
  OS.lookup percentWorld "100%/config.jsonnet" = Some (Regular "{}") /\
  Filepath.Join ["100%"; "config.jsonnet"] = "100%/config.jsonnet" /\
  NetURL.Parse "100%/config.jsonnet" = None /\
  isLocalFile instance (Filepath.Join ["100%"; "config.jsonnet"]) = false /\
  processFileRef instance j "100%" "config.jsonnet" percentWorld
  = (inr "config.jsonnet", percentWorld) /\
  fst r = inr tt /\
  OS.lookup (snd r) "/out/100%/kustomization.yml"
  = Some (manifest ["resources:"; "- config.jsonnet"; ""]) /\
  filter isRender (trace (snd r)) = [] /\
  OS.lookup (snd r) "/out/100%/config.jsonnet.yml" = None.
Proof. cbv zeta. repeat split; reflexivity. Qed.
